(** * GG - Gestor de Gastos: the extractor and the orchestrator of [main.py]

    A shallow embedding of [parse_banco_chile_email], [parse_email] and
    [get_expenses], with the parts of the Python runtime they call
    ([str] methods, [re.search], [float]) modelled next to them.

    - A Python [str] is a list of code points.
    - The Unicode character database is a parameter ([unicode_db]): every
      theorem that quantifies over bodies holds for any database.  Closed
      evaluations use [ucd_latin], the restriction of CPython's tables to
      U+0000..U+00FF, U+0130 and U+0131.
    - [float] is IEEE binary64, through the Standard Library's [SpecFloat].
    - Exceptions are values of [pyresult]; the calls made to the Sheets
      client are recorded in a log threaded through the orchestrator.
    - [parse_email] is given twice: with a standard output that writes
      every log line, and with a console whose [print] may raise. *)

From Stdlib Require Import ZArith NArith List Bool String Ascii Lia DecimalString.
From Stdlib Require Import Floats.SpecFloat.
Import ListNotations.

Set Implicit Arguments.

(* ================================================================== *)
(** ** Python strings *)

Module PyStr.

Definition codepoint := N.
Definition str := list codepoint.

Definition bytes_of (s : string) : list N :=
  map N_of_ascii (list_ascii_of_string s).

Definition cont (b : N) : N := N.land b 63.

(** Literals of this file are written as the source writes them; their
    UTF-8 bytes are decoded to code points. *)
Fixpoint utf8_decode (bs : list N) : str :=
  match bs with
  | [] => []
  | b :: r =>
      if b <? 128 then b :: utf8_decode r
      else if b <? 224 then
        match r with
        | b1 :: r1 => (N.shiftl (N.land b 31) 6 + cont b1) :: utf8_decode r1
        | _ => []
        end
      else if b <? 240 then
        match r with
        | b1 :: b2 :: r2 =>
            (N.shiftl (N.land b 15) 12 + N.shiftl (cont b1) 6 + cont b2)
              :: utf8_decode r2
        | _ => []
        end
      else
        match r with
        | b1 :: b2 :: b3 :: r3 =>
            (N.shiftl (N.land b 7) 18 + N.shiftl (cont b1) 12
             + N.shiftl (cont b2) 6 + cont b3) :: utf8_decode r3
        | _ => []
        end
  end%N.

Definition u (s : string) : str := utf8_decode (bytes_of s).

(** [s.startswith(p)], and the remainder after the prefix. *)
Fixpoint strip_prefix (p s : str) : option str :=
  match p, s with
  | [], _ => Some s
  | x :: p', y :: s' => if (x =? y)%N then strip_prefix p' s' else None
  | _ :: _, [] => None
  end.

(** [needle in hay]. *)
Fixpoint contains (needle hay : str) : bool :=
  match strip_prefix needle hay with
  | Some _ => true
  | None => match hay with
            | [] => false
            | _ :: hay' => contains needle hay'
            end
  end.

(** [s.replace(c, '')] for a one-character [c]. *)
Definition remove_char (c : codepoint) (s : str) : str :=
  filter (fun x => negb (x =? c)%N) s.

Fixpoint dropwhile (p : codepoint -> bool) (s : str) : str :=
  match s with
  | x :: s' => if p x then dropwhile p s' else s
  | [] => []
  end.

(** [s.split(' ')]: cut at every single space, empty pieces kept. *)
Fixpoint split_on (sep : codepoint) (s : str) : list str :=
  match s with
  | [] => [[]]
  | x :: s' =>
      if (x =? sep)%N then [] :: split_on sep s'
      else match split_on sep s' with
           | piece :: rest => (x :: piece) :: rest
           | [] => [[x]]
           end
  end.

(** Truth value of an [Optional[str]]: [None] and [''] are false. *)
Definition truthy (o : option str) : bool :=
  match o with
  | Some (_ :: _) => true
  | _ => false
  end.

(** [o or ''] *)
Definition or_empty (o : option str) : str :=
  match o with
  | Some s => s
  | None => []
  end.

End PyStr.
Import PyStr.

(* ================================================================== *)
(** ** The Unicode database used by [str] and [re] *)

Record unicode_db := {
  (** [Py_UNICODE_TODECIMAL]: the value of a decimal digit (what [\d],
      [str.isdecimal] and [float] look at), [None] for other characters *)
  todecimal : codepoint -> option N;
  (** [Py_UNICODE_ISSPACE]: [\s] and [str.strip] *)
  isspace : codepoint -> bool;
  (** [str.lower] and [str.capitalize], on whole strings *)
  str_lower : str -> str;
  str_capitalize : str -> str;
  (** [_sre.unicode_tolower], [_sre.unicode_iscased] and the table
      [re._casefix._EXTRA_CASES] (empty where the key is absent) *)
  sre_tolower : codepoint -> codepoint;
  sre_iscased : codepoint -> bool;
  sre_extra_cases : codepoint -> list codepoint
}.

Definition isdecimal (U : unicode_db) (c : codepoint) : bool :=
  match todecimal U c with Some _ => true | None => false end.

(** [s.strip()] *)
Definition str_strip (U : unicode_db) (s : str) : str :=
  rev (dropwhile (isspace U) (rev (dropwhile (isspace U) s))).

(** How a literal [p] of a pattern compiled with [re.IGNORECASE] matches
    a character [c] of the subject ([sre_compile._compile], literal case;
    the subject character is lowered by [sre_lower_unicode]). *)
Definition sre_ignorecase_eq (U : unicode_db) (p c : codepoint) : bool :=
  if sre_iscased U p then
    let lo := sre_tolower U p in
    existsb (N.eqb (sre_tolower U c)) (lo :: sre_extra_cases U lo)
  else (p =? c)%N.

(* ================================================================== *)
(** ** Exceptions *)

Inductive exn :=
| ValueError (msg : str)
| OtherException (msg : str).

(** [str(e)] *)
Definition exn_str (e : exn) : str :=
  match e with
  | ValueError m => m
  | OtherException m => m
  end.

Inductive pyresult (A : Type) :=
| Ok (a : A)
| Raise (e : exn).
Arguments Ok {A} a.
Arguments Raise {A} e.

Definition bind_result {A B} (c : pyresult A) (k : A -> pyresult B) : pyresult B :=
  match c with
  | Ok a => k a
  | Raise e => Raise e
  end.

(** [try: c  except ValueError: h] *)
Definition except_ValueError {A} (c : pyresult A) (h : pyresult A) : pyresult A :=
  match c with
  | Raise (ValueError _) => h
  | other => other
  end.

Declare Scope py_scope.
Delimit Scope py_scope with py.
Notation "x <- c ;; k" := (bind_result c (fun x => k))
  (at level 100, c at next level, right associativity) : py_scope.

(* ================================================================== *)
(** ** A backtracking matcher for the patterns of the source *)

Module Re.

(** The constructs the five patterns of [main.py] use.  Repetition is
    over character classes only, as in the source. *)
Inductive regex :=
| Lit (c : codepoint)
| Class (p : codepoint -> bool)
| Cat (r1 r2 : regex)
| Alt (r1 r2 : regex)
| Plus (p : codepoint -> bool)       (* [..]+  greedy *)
| PlusLazy (p : codepoint -> bool)   (* [..]+? lazy *)
| Group (r : regex).

Fixpoint lits (s : str) (last : codepoint) : regex :=
  match s with
  | [] => Lit last
  | c :: s' => Cat (Lit c) (lits s' last)
  end.

(** The literal string [s] as a pattern; [s] is not empty. *)
Definition lit_string (s : str) : regex :=
  match rev s with
  | last :: front => lits (rev front) last
  | [] => Class (fun _ => false)
  end.

(** [r{n}] for [n >= 1] *)
Fixpoint times (n : nat) (r : regex) : regex :=
  match n with
  | 0 | 1 => r
  | S n' => Cat r (times n' r)
  end.

Section Match.
(** How a literal of the pattern compares with a subject character:
    equality, or [sre_ignorecase_eq] under [re.IGNORECASE]. *)
Variable lit_eq : codepoint -> codepoint -> bool.
Variable R : Type.

(** Longest run first, then shorter ones. *)
Fixpoint plus_greedy (p : codepoint -> bool) (s : str)
    (k : str -> option R) : option R :=
  match s with
  | x :: s' =>
      if p x then
        match plus_greedy p s' k with
        | Some res => Some res
        | None => k s'
        end
      else None
  | [] => None
  end.

(** Shortest run first, then longer ones. *)
Fixpoint plus_lazy (p : codepoint -> bool) (s : str)
    (k : str -> option R) : option R :=
  match s with
  | x :: s' =>
      if p x then
        match k s' with
        | Some res => Some res
        | None => plus_lazy p s' k
        end
      else None
  | [] => None
  end.

(** [rmatch r s caps k]: match [r] at the head of [s], then continue
    with [k] on the rest; a failing continuation makes the matcher try
    the next choice.  [caps] collects the groups closed so far. *)
Fixpoint rmatch (r : regex) (s : str) (caps : list str)
    (k : str -> list str -> option R) : option R :=
  match r with
  | Lit c =>
      match s with
      | x :: s' => if lit_eq c x then k s' caps else None
      | [] => None
      end
  | Class p =>
      match s with
      | x :: s' => if p x then k s' caps else None
      | [] => None
      end
  | Cat r1 r2 => rmatch r1 s caps (fun s' caps' => rmatch r2 s' caps' k)
  | Alt r1 r2 =>
      match rmatch r1 s caps k with
      | Some res => Some res
      | None => rmatch r2 s caps k
      end
  | Plus p => plus_greedy p s (fun s' => k s' caps)
  | PlusLazy p => plus_lazy p s (fun s' => k s' caps)
  | Group r1 =>
      rmatch r1 s caps
        (fun s' caps' =>
           k s' (caps' ++ [firstn (List.length s - List.length s') s]))
  end.
End Match.

(** A match object: [m.group()] and [m.group(1)], [m.group(2)], ... *)
Record match_object := { group0 : str; groups : list str }.

Definition group (m : match_object) (i : nat) : str :=
  nth (i - 1) (groups m) [].

Definition match_at (lit_eq : codepoint -> codepoint -> bool) (r : regex)
    (s : str) : option match_object :=
  rmatch lit_eq r s []
    (fun s' caps =>
       Some {| group0 := firstn (List.length s - List.length s') s; groups := caps |}).

(** [re.search]: the match at the leftmost position that has one. *)
Fixpoint search_with (lit_eq : codepoint -> codepoint -> bool) (r : regex)
    (s : str) : option match_object :=
  match match_at lit_eq r s with
  | Some m => Some m
  | None => match s with
            | [] => None
            | _ :: s' => search_with lit_eq r s'
            end
  end.

Definition search (r : regex) (s : str) : option match_object :=
  search_with N.eqb r s.

Definition search_ignorecase (U : unicode_db) (r : regex) (s : str)
    : option match_object :=
  search_with (sre_ignorecase_eq U) r s.

End Re.
Import Re.

(* ================================================================== *)
(** ** [float] *)

Definition float := spec_float.

Definition float_zero : float := S754_zero false.   (* 0.0 *)

(** The binary64 nearest to a natural number, ties to even; infinity
    on overflow. *)
Definition binary64_of_N (n : N) : float :=
  binary_normalize 53 1024 (Z.of_N n) 0 false.

(** [x == 0] *)
Definition float_is_zero (x : float) : bool := SFeqb x float_zero.

(** [x] is the integer [z], exactly. *)
Definition float_is_int (x : float) (z : Z) : Prop :=
  match x with
  | S754_zero _ => z = 0%Z
  | S754_finite s m e =>
      let v := if s then Z.neg m else Z.pos m in
      if (0 <=? e)%Z then z = (v * 2 ^ e)%Z else v = (z * 2 ^ (- e))%Z
  | _ => False
  end.

(** [0 <= x] *)
Definition float_nonneg (x : float) : bool := SFleb float_zero x.

Fixpoint digits_value (U : unicode_db) (s : str) (acc : N) : option N :=
  match s with
  | [] => Some acc
  | c :: s' =>
      match todecimal U c with
      | Some d => digits_value U s' (10 * acc + d)%N
      | None => None
      end
  end.

Definition float_error_prefix : str :=
  Eval cbv in u "could not convert string to float: ".

(** [float(s)] on the strings the extractor passes to it, which hold
    decimal digits only (lemma [amount_str_digits]): the empty string
    raises [ValueError], a run of digits is read in base ten and rounded
    to binary64.  Strings of another shape are rejected here. *)
Definition py_float (U : unicode_db) (s : str) : pyresult float :=
  match s with
  | [] => Raise (ValueError float_error_prefix)
  | _ =>
      match digits_value U s 0 with
      | Some n => Ok (binary64_of_N n)
      | None => Raise (ValueError float_error_prefix)
      end
  end.

(* ================================================================== *)
(** ** The extractor: [parse_banco_chile_email] *)

Notation "r1 +++ r2" := (Cat r1 r2) (at level 60, right associativity).

Definition DOLLAR : codepoint := Eval cbv in hd 0%N (u "$").
Definition DOT : codepoint := Eval cbv in hd 0%N (u ".").
Definition COMMA : codepoint := Eval cbv in hd 0%N (u ",").
Definition SPACE : codepoint := Eval cbv in hd 0%N (u " ").
Definition SLASH : codepoint := Eval cbv in hd 0%N (u "/").
Definition COLON : codepoint := Eval cbv in hd 0%N (u ":").
Definition CR : codepoint := 13%N.
Definition LF : codepoint := 10%N.

Definition GIRO : str := Eval cbv in u "Giro".
Definition DEBITO : str := Eval cbv in u "Débito".
Definition CREDITO : str := Eval cbv in u "Crédito".
Definition CAJERO_AUTOMATICO : str := Eval cbv in u "Cajero Automático".

Definition kw_giro : str := Eval cbv in u "giro".
Definition kw_cajero : str := Eval cbv in u "cajero".
Definition kw_cargo_a_cuenta : str := Eval cbv in u "cargo a cuenta".
Definition kw_tarjeta_de_credito : str := Eval cbv in u "tarjeta de crédito".

(** The dict [result] of the extractor, and the pydantic model
    [TransactionParsed] that [parse_email] builds from it: the same four
    entries. *)
Record TransactionParsed := {
  amount : float;
  card_type : option str;
  merchant : option str;
  datetime : option str
}.

Definition set_amount (r : TransactionParsed) (a : float) : TransactionParsed :=
  {| amount := a; card_type := card_type r; merchant := merchant r;
     datetime := datetime r |}.
Definition set_card_type (r : TransactionParsed) (c : option str) : TransactionParsed :=
  {| amount := amount r; card_type := c; merchant := merchant r;
     datetime := datetime r |}.
Definition set_merchant (r : TransactionParsed) (m : option str) : TransactionParsed :=
  {| amount := amount r; card_type := card_type r; merchant := m;
     datetime := datetime r |}.
Definition set_datetime (r : TransactionParsed) (d : option str) : TransactionParsed :=
  {| amount := amount r; card_type := card_type r; merchant := merchant r;
     datetime := d |}.

Section Extractor.
Variable U : unicode_db.

(** [[\d\.,]] *)
Definition amount_class (c : codepoint) : bool :=
  isdecimal U c || (c =? DOT)%N || (c =? COMMA)%N.

(** [r'\$[\d\.,]+'] *)
Definition re_amount : regex := Lit DOLLAR +++ Plus amount_class.

(** [[^\r\n]] *)
Definition not_newline (c : codepoint) : bool :=
  negb ((c =? CR)%N || (c =? LF)%N).

(** [r'en ([^\r\n]+?)\s+el\s+\d'] *)
Definition re_merchant : regex :=
  lit_string (u "en ") +++ Group (PlusLazy not_newline)
    +++ Plus (isspace U) +++ lit_string (u "el")
    +++ Plus (isspace U) +++ Class (isdecimal U).

(** [r'Tarjeta de (Crédito|Débito)'], searched with [re.IGNORECASE] *)
Definition re_card_type : regex :=
  lit_string (u "Tarjeta de ")
    +++ Group (Alt (lit_string (u "Crédito")) (lit_string (u "Débito"))).

(** [\d] *)
Definition digit : regex := Class (isdecimal U).

(** [r'el (\d{2}/\d{2}/\d{4}) (\d{2}:\d{2})'] *)
Definition re_datetime : regex :=
  lit_string (u "el ")
    +++ Group (times 2 digit +++ Lit SLASH +++ times 2 digit +++ Lit SLASH
               +++ times 4 digit)
    +++ Lit SPACE
    +++ Group (times 2 digit +++ Lit COLON +++ times 2 digit).

(** [amount_match.group().replace('$', '').replace('.', '').replace(',', '')] *)
Definition amount_str_of (token : str) : str :=
  remove_char COMMA (remove_char DOT (remove_char DOLLAR token)).

(** The [try: float(amount_str) except ValueError: 0.0] of the source. *)
Definition amount_of_token (token : str) : pyresult float :=
  except_ValueError (py_float U (amount_str_of token)) (Ok float_zero).

(** The merchant of the debit and credit branches. *)
Definition with_merchant (result : TransactionParsed) (body : str) : TransactionParsed :=
  match search re_merchant body with
  | Some merchant_match =>
      set_merchant result (Some (str_strip U (group merchant_match 1)))
  | None => result
  end.

Definition parse_banco_chile_email (body : str) : pyresult TransactionParsed :=
  (let result := {| amount := float_zero; card_type := None;
                    merchant := None; datetime := None |} in
   (* 1. amount *)
   result <-
     match search re_amount body with
     | Some amount_match =>
         a <- amount_of_token (group0 amount_match) ;;
         Ok (set_amount result a)
     | None => Ok result
     end ;;
   (* 2. kind of transaction *)
   let lower := str_lower U body in
   let result :=
     if contains kw_giro lower || contains kw_cajero lower then
       set_merchant (set_card_type result (Some GIRO))
                    (Some CAJERO_AUTOMATICO)
     else if contains kw_cargo_a_cuenta lower then
       with_merchant (set_card_type result (Some DEBITO)) body
     else if contains kw_tarjeta_de_credito lower then
       with_merchant (set_card_type result (Some CREDITO)) body
     else result in
   let result :=
     if negb (truthy (card_type result)) then
       match search_ignorecase U re_card_type body with
       | Some card_type_match =>
           set_card_type result
             (Some (str_capitalize U (group card_type_match 1)))
       | None => result
       end
     else result in
   (* 3. date and time *)
   let result :=
     match search re_datetime body with
     | Some datetime_match =>
         set_datetime result
           (Some (group datetime_match 1 ++ [SPACE] ++ group datetime_match 2))
     | None => result
     end in
   Ok result)%py.

End Extractor.

(* ================================================================== *)
(** ** CPython's tables on U+0000..U+00FF, U+0130 and U+0131

    Characters outside this range are given no property and no case
    mapping here. *)

Module Latin.
Open Scope N_scope.

Definition between (lo hi c : codepoint) : bool := (lo <=? c) && (c <=? hi).

Definition todecimal (c : codepoint) : option N :=
  if between 48 57 c then Some (c - 48) else None.

(** The 29 characters of [str.isspace]. *)
Definition isspace (c : codepoint) : bool :=
  between 9 13 c || between 28 32 c || (c =? 133) || (c =? 160)
  || (c =? 5760) || between 8192 8202 c || (c =? 8232) || (c =? 8233)
  || (c =? 8239) || (c =? 8287) || (c =? 12288).

(** Full lowercase mapping of one character. *)
Definition lower_char (c : codepoint) : str :=
  if between 65 90 c then [c + 32]
  else if between 192 222 c && negb (c =? 215) then [c + 32]
  else if c =? 304 then [105; 775]
  else [c].

(** Full titlecase mapping of one character. *)
Definition title_char (c : codepoint) : str :=
  if between 97 122 c then [c - 32]
  else if between 224 254 c && negb (c =? 247) then [c - 32]
  else if c =? 255 then [376]
  else if c =? 181 then [924]
  else if c =? 223 then [83; 115]
  else if c =? 305 then [73]
  else [c].

Definition lower (s : str) : str := flat_map lower_char s.

Definition capitalize (s : str) : str :=
  match s with
  | [] => []
  | c :: rest => title_char c ++ lower rest
  end.

Definition tolower (c : codepoint) : codepoint := hd c (lower_char c).

Definition iscased (c : codepoint) : bool :=
  between 65 90 c || between 97 122 c || (c =? 181)
  || (between 192 255 c && negb (c =? 215) && negb (c =? 247))
  || (c =? 304) || (c =? 305).

Definition extra_cases (c : codepoint) : list codepoint :=
  if c =? 105 then [305]
  else if c =? 115 then [383]
  else if c =? 181 then [956]
  else if c =? 305 then [105]
  else if c =? 383 then [115]
  else if c =? 956 then [181]
  else [].

End Latin.

Definition ucd_latin : unicode_db := {|
  todecimal := Latin.todecimal;
  isspace := Latin.isspace;
  str_lower := Latin.lower;
  str_capitalize := Latin.capitalize;
  sre_tolower := Latin.tolower;
  sre_iscased := Latin.iscased;
  sre_extra_cases := Latin.extra_cases
|}.

(* ================================================================== *)
(** ** The Sheets client and the calls made to it *)

Inductive cell :=
| CellStr (s : str)
| CellFloat (x : float).

Definition row := list cell.

(** What the source reads of the dict returned by
    [values().append(...).execute()]:
    [result.get('updates', {}).get('updatedRange', 'N/A')]. *)
Record append_response := { updatedRange : option str }.

(** The Google Sheets service behind [googleapiclient]: [build] and the
    two requests of [main.py] either answer or raise. *)
Record sheets_client := {
  build : pyresult unit;
  values_append : str -> str -> list row -> pyresult append_response;
  (** the ['values'] entry of the answer, absent for an empty range *)
  values_get : str -> str -> pyresult (option (list row))
}.

Inductive api_event :=
| EvBuild
| EvAppend (spreadsheetId range : str) (values : list row)
| EvGet (spreadsheetId range : str).

(** Code that talks to the client: the log of calls is threaded through,
    and an exception keeps the log as it was when it was raised. *)
Definition IO (A : Type) : Type := list api_event -> pyresult A * list api_event.

Definition io_ret {A} (a : A) : IO A := fun log => (Ok a, log).

Definition io_bind {A B} (c : IO A) (k : A -> IO B) : IO B :=
  fun log =>
    match c log with
    | (Ok a, log') => k a log'
    | (Raise e, log') => (Raise e, log')
    end.

Definition io_lift {A} (r : pyresult A) : IO A := fun log => (r, log).

(** A request sent to the service, logged before its outcome is known. *)
Definition io_call {A} (ev : api_event) (outcome : pyresult A) : IO A :=
  fun log => (outcome, log ++ [ev]).

(** [try: c  except Exception as e: h e] *)
Definition try_except {A} (c : IO A) (h : exn -> IO A) : IO A :=
  fun log =>
    match c log with
    | (Raise e, log') => h e log'
    | ok => ok
    end.

Declare Scope io_scope.
Delimit Scope io_scope with io.
Notation "x <- c ;; k" := (io_bind c (fun x => k))
  (at level 100, c at next level, right associativity) : io_scope.

(** What a FastAPI endpoint does: return a body, or raise
    [HTTPException(status_code, detail)]. *)
Inductive http_result (A : Type) :=
| Returned (a : A)
| HTTPException (status_code : Z) (detail : str).
Arguments Returned {A} a.
Arguments HTTPException {A} status_code detail.

(** [try: c  except Exception as e: raise HTTPException(500, str(e))] *)
Definition or_http_500 {A} (c : IO A)
    : list api_event -> http_result A * list api_event :=
  fun log =>
    match c log with
    | (Ok a, log') => (Returned a, log')
    | (Raise e, log') => (HTTPException 500 (exn_str e), log')
    end.

Definition get_sheets_service (client : sheets_client) : IO unit :=
  io_call EvBuild (build client).

Definition write_to_sheet (client : sheets_client)
    (spreadsheet_id range_name : str) (values : list row) : IO append_response :=
  (_ <- get_sheets_service client ;;
   io_call (EvAppend spreadsheet_id range_name values)
           (values_append client spreadsheet_id range_name values))%io.

Definition read_from_sheet (client : sheets_client)
    (spreadsheet_id range_name : str) : IO (list row) :=
  (_ <- get_sheets_service client ;;
   result <- io_call (EvGet spreadsheet_id range_name)
                     (values_get client spreadsheet_id range_name) ;;
   io_ret (match result with Some values => values | None => [] end))%io.

(* ================================================================== *)
(** ** The orchestrator: [parse_email] *)

(** [os.environ.get('SPREADSHEET_ID')] and [os.environ.get('SHEET_NAME')] *)
Record environ := {
  SPREADSHEET_ID : option str;
  SHEET_NAME : option str
}.

Record EmailRequest := {
  subject : str;
  body : str;
  date : str
}.

Record ParseResponse := {
  status : str;
  transaction : option TransactionParsed;
  message : option str
}.

Definition st_success : str := Eval cbv in u "success".
Definition st_error : str := Eval cbv in u "error".
Definition msg_no_transaction : str :=
  Eval cbv in u "No se pudo extraer información de transacción del correo".
Definition err_not_configured : str :=
  Eval cbv in u "SPREADSHEET_ID no configurado en variables de entorno".
Definition msg_saved : str := Eval cbv in u "✅ Guardado en Google Sheets: ".
Definition msg_not_saved : str := Eval cbv in u "⚠️ No guardado en Sheets: ".
Definition msg_not_configured : str :=
  Eval cbv in u "⚠️ SPREADSHEET_ID no configurado".
Definition details_prefix : str := Eval cbv in u "Agregada fila en rango: ".
Definition default_sheet_name : str := Eval cbv in u "Sheet1".
Definition range_A_E : str := Eval cbv in u "!A:E".
Definition not_available : str := Eval cbv in u "N/A".

(** [date_str] and [time_str] of the source: the two pieces of
    [transaction.datetime.split(' ')], when there are exactly two. *)
Definition date_and_time (t : TransactionParsed) : option str * option str :=
  if truthy (datetime t) then
    match split_on SPACE (or_empty (datetime t)) with
    | [date_str; time_str] => (Some date_str, Some time_str)
    | _ => (None, None)
    end
  else (None, None).

Definition row_data (t : TransactionParsed) : row :=
  let '(date_str, time_str) := date_and_time t in
  [ CellStr (or_empty date_str);
    CellStr (or_empty time_str);
    CellStr (or_empty (merchant t));
    CellStr (or_empty (card_type t));
    CellFloat (amount t) ].

(** The three variables [sheets_saved], [sheets_error], [sheets_details]. *)
Record sheets_outcome := {
  sheets_saved : bool;
  sheets_error : option str;
  sheets_details : option str
}.

Definition response_message (o : sheets_outcome) : str :=
  if sheets_saved o then msg_saved ++ or_empty (sheets_details o)
  else if truthy (sheets_error o) then msg_not_saved ++ or_empty (sheets_error o)
  else msg_not_configured.

Section Orchestrator.
Variable U : unicode_db.
Variable env : environ.
Variable client : sheets_client.

(** The block under [GUARDAR EN GOOGLE SHEETS] when every log line is
    written: the only statement of the inner [try] that can raise is then
    [write_to_sheet], which runs before [sheets_saved] is set, and the
    handler ends.  [save_to_sheets_stdout] below has the log lines, and
    lemma [parse_email_stdout_writes_all] relates the two. *)
Definition save_to_sheets (t : TransactionParsed) : IO sheets_outcome :=
  if negb (truthy (SPREADSHEET_ID env)) then
    io_ret {| sheets_saved := false;
              sheets_error := Some err_not_configured;
              sheets_details := None |}
  else
    try_except
      (let sheet_name :=
         match SHEET_NAME env with
         | Some name => name
         | None => default_sheet_name
         end in
       result <- write_to_sheet client (or_empty (SPREADSHEET_ID env))
                   (sheet_name ++ range_A_E) [row_data t] ;;
       io_ret {| sheets_saved := true;
                 sheets_error := None;
                 sheets_details :=
                   Some (details_prefix ++
                         match updatedRange result with
                         | Some r => r
                         | None => not_available
                         end) |})%io
      (fun sheet_error =>
         io_ret {| sheets_saved := false;
                   sheets_error := Some (exn_str sheet_error);
                   sheets_details := None |}).

Definition parse_email (email : EmailRequest)
    : list api_event -> http_result ParseResponse * list api_event :=
  or_http_500
    (parsed_data <- io_lift (parse_banco_chile_email U (body email)) ;;
     if float_is_zero (amount parsed_data) then
       io_ret {| status := st_error;
                 transaction := None;
                 message := Some msg_no_transaction |}
     else
       let transaction := parsed_data in
       outcome <- save_to_sheets transaction ;;
       io_ret {| status := st_success;
                 transaction := Some transaction;
                 message := Some (response_message outcome) |})%io.
End Orchestrator.

(* ================================================================== *)
(** ** The orchestrator with its log lines *)

(** The lines [parse_email] prints, by their format string and its
    argument. *)
Inductive log_line :=
| LineAttempt (spreadsheet_id : str)   (* "📊 Intentando guardar en Sheets: ..." *)
| LineData (row_data : row)            (* "📝 Datos: ..." *)
| LineSaved (sheets_details : str)     (* "✅ Guardado exitoso: ..." *)
| LineError (sheet_error : exn).       (* "❌ Error al guardar en Sheets: ..." *)

(** Standard output and standard error as [parse_email] uses them:
    [print(line)] and [traceback.print_exc()] write, or raise (a closed
    stream, an encoding without the characters of the line). *)
Record console := {
  print : log_line -> pyresult unit;
  print_exc : exn -> pyresult unit
}.

(** The inner [try] assigns to [sheets_saved], [sheets_error] and
    [sheets_details] as it goes; its handler and the code after it see the
    assignments made before an exception.  The three variables are
    threaded together with the log of calls. *)
Record run_state := {
  vars : sheets_outcome;
  calls : list api_event
}.

Definition Run (A : Type) : Type := run_state -> pyresult A * run_state.

Definition run_ret {A} (a : A) : Run A := fun st => (Ok a, st).

Definition run_bind {A B} (c : Run A) (k : A -> Run B) : Run B :=
  fun st =>
    match c st with
    | (Ok a, st') => k a st'
    | (Raise e, st') => (Raise e, st')
    end.

Definition run_lift {A} (r : pyresult A) : Run A := fun st => (r, st).

(** Code that talks to the client only. *)
Definition run_io {A} (c : IO A) : Run A :=
  fun st =>
    let '(r, log') := c (calls st) in
    (r, {| vars := vars st; calls := log' |}).

Definition run_assign (f : sheets_outcome -> sheets_outcome) : Run unit :=
  fun st => (Ok tt, {| vars := f (vars st); calls := calls st |}).

Definition run_vars : Run sheets_outcome := fun st => (Ok (vars st), st).

(** [try: c  except Exception as e: h e] *)
Definition run_try {A} (c : Run A) (h : exn -> Run A) : Run A :=
  fun st =>
    match c st with
    | (Raise e, st') => h e st'
    | ok => ok
    end.

Declare Scope run_scope.
Delimit Scope run_scope with run.
Notation "x <- c ;; k" := (run_bind c (fun x => k))
  (at level 100, c at next level, right associativity) : run_scope.

Definition set_sheets_saved (b : bool) (o : sheets_outcome) : sheets_outcome :=
  {| sheets_saved := b; sheets_error := sheets_error o;
     sheets_details := sheets_details o |}.

Definition set_sheets_error (e : option str) (o : sheets_outcome)
    : sheets_outcome :=
  {| sheets_saved := sheets_saved o; sheets_error := e;
     sheets_details := sheets_details o |}.

Definition set_sheets_details (d : option str) (o : sheets_outcome)
    : sheets_outcome :=
  {| sheets_saved := sheets_saved o; sheets_error := sheets_error o;
     sheets_details := d |}.

(** [sheets_saved = False; sheets_error = None; sheets_details = None] *)
Definition nothing_saved : sheets_outcome :=
  {| sheets_saved := false; sheets_error := None; sheets_details := None |}.

(** [try: c  except Exception as e: raise HTTPException(500, str(e))] *)
Definition run_or_http_500 {A} (c : Run A)
    : list api_event -> http_result A * list api_event :=
  fun log =>
    match c {| vars := nothing_saved; calls := log |} with
    | (Ok a, st) => (Returned a, calls st)
    | (Raise e, st) => (HTTPException 500 (exn_str e), calls st)
    end.

Section OrchestratorStdout.
Variable U : unicode_db.
Variable env : environ.
Variable client : sheets_client.
Variable out : console.

(** The block under [GUARDAR EN GOOGLE SHEETS], statement by statement.
    The handler of the inner [try] runs outside that [try]: what
    [print] or [traceback.print_exc()] raise there reaches the outer
    handler of [parse_email]. *)
Definition save_to_sheets_stdout (t : TransactionParsed) : Run unit :=
  if negb (truthy (SPREADSHEET_ID env)) then
    run_assign (set_sheets_error (Some err_not_configured))
  else
    run_try
      (let row_data := row_data t in
       _ <- run_lift (print out (LineAttempt (or_empty (SPREADSHEET_ID env)))) ;;
       _ <- run_lift (print out (LineData row_data)) ;;
       let sheet_name :=
         match SHEET_NAME env with
         | Some name => name
         | None => default_sheet_name
         end in
       result <- run_io (write_to_sheet client (or_empty (SPREADSHEET_ID env))
                           (sheet_name ++ range_A_E) [row_data]) ;;
       _ <- run_assign (set_sheets_saved true) ;;
       let sheets_details :=
         details_prefix ++ match updatedRange result with
                           | Some r => r
                           | None => not_available
                           end in
       _ <- run_assign (set_sheets_details (Some sheets_details)) ;;
       run_lift (print out (LineSaved sheets_details)))%run
      (fun sheet_error =>
         _ <- run_assign (set_sheets_error (Some (exn_str sheet_error))) ;;
         _ <- run_lift (print out (LineError sheet_error)) ;;
         run_lift (print_exc out sheet_error))%run.

Definition parse_email_stdout (email : EmailRequest)
    : list api_event -> http_result ParseResponse * list api_event :=
  run_or_http_500
    (parsed_data <- run_lift (parse_banco_chile_email U (body email)) ;;
     if float_is_zero (amount parsed_data) then
       run_ret {| status := st_error;
                  transaction := None;
                  message := Some msg_no_transaction |}
     else
       let transaction := parsed_data in
       _ <- run_assign (fun _ => nothing_saved) ;;
       _ <- save_to_sheets_stdout transaction ;;
       outcome <- run_vars ;;
       run_ret {| status := st_success;
                  transaction := Some transaction;
                  message := Some (response_message outcome) |})%run.
End OrchestratorStdout.

(* ================================================================== *)
(** ** The read path: [get_expenses] *)

Record ExpensesResponse := {
  exp_status : str;
  count : nat;
  data : list row
}.

(** [str(n)] for an [int] *)
Definition str_of_int (n : Z) : str :=
  bytes_of (DecimalString.NilZero.string_of_int (Z.to_int n)).

Definition default_spreadsheet_id : str := Eval cbv in u "tu-spreadsheet-id".
Definition range_Gastos_A : str := Eval cbv in u "Gastos!A".
Definition range_colon_D : str := Eval cbv in u ":D".

Section ReadPath.
Variable env : environ.
Variable client : sheets_client.

Definition start_row (offset : Z) : Z := 2 + offset.
Definition end_row (limit offset : Z) : Z := start_row offset + limit.

(** [f'Gastos!A{start_row}:D{end_row}'] *)
Definition expenses_range (limit offset : Z) : str :=
  range_Gastos_A ++ str_of_int (start_row offset)
    ++ range_colon_D ++ str_of_int (end_row limit offset).

Definition get_expenses (limit offset : Z)
    : list api_event -> http_result ExpensesResponse * list api_event :=
  or_http_500
    (let spreadsheet_id :=
       match SPREADSHEET_ID env with
       | Some id => id
       | None => default_spreadsheet_id
       end in
     expenses <- read_from_sheet client spreadsheet_id
                   (expenses_range limit offset) ;;
     io_ret {| exp_status := st_success;
               count := List.length expenses;
               data := expenses |})%io.
End ReadPath.

(* ================================================================== *)
(** ** A spreadsheet answering in A1 notation

    The service is not part of [main.py].  This client holds the rows of
    the sheet "Gastos" and answers a request for [Gastos!A<r1>:D<r2>] as
    the Sheets API does: rows [r1] to [r2], both included, as far as the
    sheet has them.  Any other request is refused. *)

Module Sheet.

Fixpoint read_decimal (s : str) (acc : N) : N * str :=
  match s with
  | c :: s' =>
      match Latin.todecimal c with
      | Some dgt => read_decimal s' (10 * acc + dgt)%N
      | None => (acc, s)
      end
  | [] => (acc, [])
  end.

(** [Gastos!A<r1>:D<r2>] to [(r1, r2)] *)
Definition parse_range (range_name : str) : option (N * N) :=
  match strip_prefix range_Gastos_A range_name with
  | Some rest =>
      match read_decimal rest 0 with
      | (r1, rest1) =>
          if Nat.eqb (List.length rest1) (List.length rest) then None
          else
            match strip_prefix range_colon_D rest1 with
            | Some rest2 =>
                match read_decimal rest2 0 with
                | (r2, []) =>
                    match rest2 with [] => None | _ => Some (r1, r2) end
                | _ => None
                end
            | None => None
            end
      end
  | None => None
  end.

Definition unable_to_parse_range : str := Eval cbv in u "Unable to parse range".

Definition get (sheet : list row) (range_name : str)
    : pyresult (option (list row)) :=
  match parse_range range_name with
  | Some (r1, r2) =>
      if ((1 <=? r1) && (r1 <=? r2))%N then
        match firstn (N.to_nat (r2 - r1 + 1))
                     (skipn (N.to_nat (r1 - 1)) sheet) with
        | [] => Ok None
        | rows => Ok (Some (map (firstn 4) rows))
        end
      else Raise (OtherException unable_to_parse_range)
  | None => Raise (OtherException unable_to_parse_range)
  end.

Definition client (sheet : list row) : sheets_client := {|
  build := Ok tt;
  values_append := fun _ _ _ => Ok {| updatedRange := None |};
  values_get := fun _ range_name => get sheet range_name
|}.

End Sheet.

(* ================================================================== *)
(** ** The API key: [get_api_key] *)

Definition development_mode : str := Eval cbv in u "development-mode".
Definition detail_missing_key : str :=
  Eval cbv in u "Missing API Key. Include 'X-API-Key' header in your request.".
Definition detail_invalid_key : str := Eval cbv in u "Invalid API Key".

(** [a == b] on strings *)
Fixpoint str_eqb (a b : str) : bool :=
  match a, b with
  | [], [] => true
  | x :: a', y :: b' => (x =? y)%N && str_eqb a' b'
  | _, _ => false
  end.

(** [expected_key] is [os.environ.get("API_KEY")]; [api_key] is the
    [X-API-Key] header, [None] when the request has none (the scheme is
    declared with [auto_error=False]). *)
Definition get_api_key (expected_key api_key : option str) : http_result str :=
  if negb (truthy expected_key) then Returned development_mode
  else if negb (truthy api_key) then HTTPException 401 detail_missing_key
  else if negb (str_eqb (or_empty api_key) (or_empty expected_key)) then
         HTTPException 403 detail_invalid_key
  else Returned (or_empty api_key).

(** The route [POST /parse-email]: the dependency [Depends(get_api_key)]
    is resolved first, and the handler runs only if it returned. *)
Definition parse_email_route (U : unicode_db) (env : environ)
    (client : sheets_client) (expected_key api_key : option str)
    (email : EmailRequest)
    : list api_event -> http_result ParseResponse * list api_event :=
  fun log =>
    match get_api_key expected_key api_key with
    | Returned _ => parse_email U env client email log
    | HTTPException status_code detail => (HTTPException status_code detail, log)
    end.

(* ================================================================== *)
(** ** The utilities [get_last_row] and [batch_update_sheet] *)



Module Batch.
Section Batch.
(** The values held by the dicts of [updates]; the function copies them
    and never looks inside. *)
Variable V : Type.

(** A dict with string keys, as the list of its items. *)
Definition dict := list (str * V).

Definition key_range : str := Eval cbv in u "range".
Definition key_values : str := Eval cbv in u "values".
Definition USER_ENTERED : str := Eval cbv in u "USER_ENTERED".
Definition QUOTE : codepoint := Eval cbv in hd 0%N (u "'").

(** [KeyError(key)], whose [str] is the [repr] of the key. *)
Definition KeyError (key : str) : exn := OtherException (QUOTE :: key ++ [QUOTE]).

(** [d[key]] *)
Fixpoint getitem (d : dict) (key : str) : pyresult V :=
  match d with
  | [] => Raise (KeyError key)
  | (k, v) :: d' => if str_eqb k key then Ok v else getitem d' key
  end.

(** One entry of [data]: [{'range': ..., 'values': ...}] *)
Record data_entry := { entry_range : V; entry_values : V }.

(** The [body] of the request *)
Record batch_body := { valueInputOption : str; body_data : list data_entry }.

Inductive event :=
| Build
| BatchUpdate (spreadsheetId : str) (request_body : batch_body).

(** The service: [build] and [values().batchUpdate(...).execute()],
    answering in [Resp] or raising. *)
Variable Resp : Type.
Record service := {
  service_build : pyresult unit;
  values_batchUpdate : str -> batch_body -> pyresult Resp
}.

Definition Log (A : Type) : Type := list event -> pyresult A * list event.

Definition ret {A} (a : A) : Log A := fun log => (Ok a, log).

Definition bind {A B} (c : Log A) (k : A -> Log B) : Log B :=
  fun log =>
    match c log with
    | (Ok a, log') => k a log'
    | (Raise e, log') => (Raise e, log')
    end.

Definition lift {A} (r : pyresult A) : Log A := fun log => (r, log).

Definition call {A} (ev : event) (outcome : pyresult A) : Log A :=
  fun log => (outcome, log ++ [ev]).

(** [{'range': update['range'], 'values': update['values']}] *)
Definition entry_of (update : dict) : pyresult data_entry :=
  (r <- getitem update key_range ;;
   v <- getitem update key_values ;;
   Ok {| entry_range := r; entry_values := v |})%py.

(** The list comprehension over [updates], which stops at the first
    [KeyError]. *)
Fixpoint entries_of (updates : list dict) : pyresult (list data_entry) :=
  match updates with
  | [] => Ok []
  | update :: rest =>
      (e <- entry_of update ;;
       es <- entries_of rest ;;
       Ok (e :: es))%py
  end.

Definition batch_update_sheet (svc : service) (spreadsheet_id : str)
    (updates : list dict) : Log Resp :=
  bind (call Build (service_build svc)) (fun _ =>
  bind (lift (entries_of updates)) (fun data =>
  let body := {| valueInputOption := USER_ENTERED; body_data := data |} in
  call (BatchUpdate spreadsheet_id body)
       (values_batchUpdate svc spreadsheet_id body))).

End Batch.
End Batch.

(* ================================================================== *)
(** ** The vocabulary of the properties *)

Definition is_substring (needle hay : str) : Prop :=
  exists before after, hay = before ++ needle ++ after.

Section Vocabulary.
Variable U : unicode_db.

(** [body] has a [$] followed by a character of [[\d\.,]] right after
    [before]: a substring matching the pattern starts there. *)
Definition amount_pattern_at (body before : str) : Prop :=
  exists c after,
    body = before ++ DOLLAR :: c :: after /\ amount_class U c = true.

Definition has_amount_pattern (body : str) : Prop :=
  exists before, amount_pattern_at body before.

(** [$tok] is the first substring of [body] matching the pattern:
    [tok] is a longest non-empty run of class characters behind a [$],
    and no match starts further left. *)
Definition first_amount_token (body before tok after : str) : Prop :=
  body = before ++ DOLLAR :: tok ++ after /\
  tok <> [] /\
  Forall (fun c => amount_class U c = true) tok /\
  match after with c :: _ => amount_class U c = false | [] => True end /\
  (forall b, List.length b < List.length before ->
             ~ amount_pattern_at body b).

(** The token without the currency symbol, the dots and the commas. *)
Definition strip_separators (tok : str) : str :=
  filter (fun c => negb ((c =? DOLLAR) || (c =? DOT) || (c =? COMMA))%N) tok.

(** The first stage of [parse_banco_chile_email]. *)
Definition amount_stage (body : str) : pyresult float :=
  match search (re_amount U) body with
  | Some amount_match => amount_of_token U (group0 amount_match)
  | None => Ok float_zero
  end.

(** The specification's wording: without a currency token every
    other field would be absent as well. *)
Definition no_amount_means_all_absent (body : str) : Prop :=
  ~ has_amount_pattern body ->
  exists r, parse_banco_chile_email U body = Ok r /\
            amount r = float_zero /\ card_type r = None /\
            merchant r = None /\ datetime r = None.
End Vocabulary.

(** The client fails the append attempt with [e]: the service cannot be
    built, or every append request raises. *)
Definition client_raises (client : sheets_client) (e : exn) : Prop :=
  build client = Raise e \/
  (build client = Ok tt /\
   forall id range_name values,
     values_append client id range_name values = Raise e).

(* ================================================================== *)
(** ** More vocabulary: patterns, stages, requests *)

(** The characters a pattern made of literals and classes asks for, one
    test per position; [None] for a pattern with a choice in it. *)
Fixpoint atoms (lit_eq : codepoint -> codepoint -> bool) (r : regex)
    : option (list (codepoint -> bool)) :=
  match r with
  | Lit c => Some [lit_eq c]
  | Class p => Some [p]
  | Cat r1 r2 =>
      match atoms lit_eq r1, atoms lit_eq r2 with
      | Some a1, Some a2 => Some (a1 ++ a2)
      | _, _ => None
      end
  | _ => None
  end.

(** What is left of [s] after a prefix passing the tests [ps]. *)
Fixpoint consume (ps : list (codepoint -> bool)) (s : str) : option str :=
  match ps, s with
  | [], _ => Some s
  | p :: ps', x :: s' => if p x then consume ps' s' else None
  | _ :: _, [] => None
  end.

(** A pattern without capture groups. *)
Fixpoint group_free (r : regex) : bool :=
  match r with
  | Group _ => false
  | Cat r1 r2 | Alt r1 r2 => group_free r1 && group_free r2
  | _ => true
  end.

(** [w] passes the tests [ps], character by character. *)
Definition passes (ps : list (codepoint -> bool)) (w : str) : Prop :=
  Forall2 (fun p x => p x = true) ps w.

(** [s] neither begins nor ends with a character passing [p]. *)
Definition trimmed (p : codepoint -> bool) (s : str) : Prop :=
  (forall x rest, s = x :: rest -> p x = false) /\
  (forall front x, s = front ++ [x] -> p x = false).

Definition kw_en : str := Eval cbv in u "en ".
Definition kw_el : str := Eval cbv in u "el".
Definition kw_el_space : str := Eval cbv in u "el ".

(** The tests of [\d{2}/\d{2}/\d{4}] and of [\d{2}:\d{2}], position by
    position. *)
Definition date_tests (U : unicode_db) : list (codepoint -> bool) :=
  [isdecimal U; isdecimal U; N.eqb SLASH; isdecimal U; isdecimal U;
   N.eqb SLASH; isdecimal U; isdecimal U; isdecimal U; isdecimal U].

Definition time_tests (U : unicode_db) : list (codepoint -> bool) :=
  [isdecimal U; isdecimal U; N.eqb COLON; isdecimal U; isdecimal U].

(** The stages of [parse_banco_chile_email] after the amount, named. *)
Definition init_result : TransactionParsed :=
  {| amount := float_zero; card_type := None; merchant := None;
     datetime := None |}.

Section Stages.
Variable U : unicode_db.
Variable body : str.

Definition classify (result : TransactionParsed) : TransactionParsed :=
  let lower := str_lower U body in
  if contains kw_giro lower || contains kw_cajero lower then
    set_merchant (set_card_type result (Some GIRO)) (Some CAJERO_AUTOMATICO)
  else if contains kw_cargo_a_cuenta lower then
    with_merchant U (set_card_type result (Some DEBITO)) body
  else if contains kw_tarjeta_de_credito lower then
    with_merchant U (set_card_type result (Some CREDITO)) body
  else result.

Definition fallback (result : TransactionParsed) : TransactionParsed :=
  if negb (truthy (card_type result)) then
    match search_ignorecase U re_card_type body with
    | Some card_type_match =>
        set_card_type result (Some (str_capitalize U (group card_type_match 1)))
    | None => result
    end
  else result.

Definition timestamp (result : TransactionParsed) : TransactionParsed :=
  match search (re_datetime U) body with
  | Some datetime_match =>
      set_datetime result
        (Some (group datetime_match 1 ++ [SPACE] ++ group datetime_match 2))
  | None => result
  end.

(** The merchant found by the debit and credit branches:
    [merchant_match.group(1).strip()]. *)
Definition found_merchant : option str :=
  option_map (fun m => str_strip U (group m 1)) (search (re_merchant U) body).

(** The number read from the first currency token of the body. *)
Definition token_value : option N :=
  match search (re_amount U) body with
  | Some amount_match => digits_value U (amount_str_of (group0 amount_match)) 0
  | None => None
  end.
End Stages.

(** [f'{sheet_name}!A:E'] *)
Definition append_range (env : environ) : str :=
  match SHEET_NAME env return str with
  | Some name => name
  | None => default_sheet_name
  end ++ range_A_E.

(** The append request that [parse_email] sends for a record. *)
Definition append_event (env : environ) (r : TransactionParsed) : api_event :=
  EvAppend (or_empty (SPREADSHEET_ID env)) (append_range env) [row_data r].


(** The spreadsheet [get_expenses] reads. *)
Definition expenses_spreadsheet (env : environ) : str :=
  match SPREADSHEET_ID env return str with
  | Some id => id
  | None => default_spreadsheet_id
  end.

(** The entry of [data] built from an update holding both keys. *)
Definition entry_matches {V : Type} (update : Batch.dict V)
    (e : Batch.data_entry V) : Prop :=
  Batch.getitem update Batch.key_range = Ok (Batch.entry_range e) /\
  Batch.getitem update Batch.key_values = Ok (Batch.entry_values e).

(** An update from which an entry can be built. *)
Definition has_both_keys {V : Type} (update : Batch.dict V) : Prop :=
  exists e, entry_matches update e.

(** The append attempt for the record [r] raises [e]: the service cannot
    be built, or the request [parse_email] sends for [r] raises. *)
Definition append_raises (env : environ) (client : sheets_client)
    (r : TransactionParsed) (e : exn) : Prop :=
  build client = Raise e \/
  (build client = Ok tt /\
   values_append client (or_empty (SPREADSHEET_ID env)) (append_range env)
     [row_data r] = Raise e).

(** A console that writes every line. *)
Definition writes_all (out : console) : Prop :=
  (forall line, print out line = Ok tt) /\
  (forall e, print_exc out e = Ok tt).

(** The record without its amount: the three later stages on the initial
    record. *)
Definition other_fields (U : unicode_db) (body : str) : TransactionParsed :=
  timestamp U body (fallback U body (classify U body init_result)).

(** The wording of the specification: a comma is the decimal mark, so
    only the currency symbol and the grouping dots are stripped. *)
Definition strip_grouping (tok : str) : str :=
  filter (fun c => negb ((c =? DOLLAR) || (c =? DOT))%N) tok.

(** The number a run of digits with at most one decimal comma stands
    for, as numerator and denominator. *)
Definition decimal_reading (U : unicode_db) (s : str) : option (N * N) :=
  match split_on COMMA s with
  | [whole] => option_map (fun n => (n, 1%N)) (digits_value U whole 0)
  | [whole; frac] =>
      option_map (fun n => (n, (10 ^ N.of_nat (List.length frac))%N))
                 (digits_value U (whole ++ frac) 0)
  | _ => None
  end.

(** [x] is the number [num / den], exactly. *)
Definition float_is_ratio (x : float) (num den : N) : Prop :=
  match x with
  | S754_zero _ => num = 0%N
  | S754_finite false m e =>
      if (0 <=? e)%Z then (Z.pos m * 2 ^ e * Z.of_N den = Z.of_N num)%Z
      else (Z.pos m * Z.of_N den = Z.of_N num * 2 ^ (- e))%Z
  | _ => False
  end.

(** The specification's wording of the amount: the first token, without
    its currency symbol and grouping dots, read as a decimal number. *)
Definition amount_as_worded (U : unicode_db) (body : str) : Prop :=
  forall before tok after,
    first_amount_token U body before tok after ->
    exists r num den,
      parse_banco_chile_email U body = Ok r /\
      decimal_reading U (strip_grouping tok) = Some (num, den) /\
      float_is_ratio (amount r) num den.

(** The digits [ds], most significant first, read in base ten. *)
Definition base_ten (ds : list N) : N :=
  fold_left (fun acc d => (10 * acc + d)%N) ds 0%N.

(** [ds] are the values of the characters of [s], all decimal digits. *)
Definition digits_of (U : unicode_db) (s : str) (ds : list N) : Prop :=
  Forall2 (fun c d => todecimal U c = Some d) s ds.

(** Two records that differ at most in their amount. *)
Definition same_but_amount (a b : TransactionParsed) : Prop :=
  card_type a = card_type b /\ merchant a = merchant b /\
  datetime a = datetime b.

(* ================================================================== *)
(** ** Sample inputs *)

Definition body_purchase : str :=
  u "...compra por $122.000 con Tarjeta de Crédito 3670 en SII 11001SANTIAGOCL el 05/02/2026 16:23.".

Definition record_purchase : TransactionParsed :=
  {| amount := binary64_of_N 122000;
     card_type := Some (u "Crédito");
     merchant := Some (u "SII 11001SANTIAGOCL");
     datetime := Some (u "05/02/2026 16:23") |}.

Definition body_giro : str := u "Giro en cajero el 05/02/2026 16:23".

Definition body_cajero : str :=
  u "Retiro en CAJERO con cargo a cuenta y Tarjeta de Crédito por $20.000 en BANCO el 05/02/2026 16:23".

Definition body_two_amounts : str := u "saldo $ ok: pago por $122.000 y cuota de $5,50".

Definition env_configured : environ :=
  {| SPREADSHEET_ID := Some (u "1AbCdEf"); SHEET_NAME := None |}.

Definition quota_exceeded : exn := OtherException (u "Quota exceeded").

Definition failing_client : sheets_client := {|
  build := Ok tt;
  values_append := fun _ _ _ => Raise quota_exceeded;
  values_get := fun _ _ => Raise quota_exceeded
|}.

Definition email_purchase : EmailRequest :=
  {| subject := u "Compra con Tarjeta de Crédito";
     body := body_purchase;
     date := u "2026-02-06T19:47:58.000Z" |}.

Definition email_greeting : EmailRequest :=
  {| subject := u "Hola"; body := u "Hola, sin novedades."; date := [] |}.

Definition body_debit : str :=
  u "Cargo a cuenta por $950 con tarjeta de crédito en SAN FRANCISCO el 01/01/2024 10:00".

Definition body_fallback : str := u "Pago con Tarjeta de Débito por $950".

Definition accepting_client : sheets_client := {|
  build := Ok tt;
  values_append :=
    fun _ _ _ => Ok {| updatedRange := Some (u "Sheet1!A5:E5") |};
  values_get := fun _ _ => Ok None
|}.

Definition configured_key : option str := Eval cbv in Some (u "s3cret").
Definition guessed_key : option str := Eval cbv in Some (u "guess").

(** Two updates, the second without "values"; and two complete ones, the
    first with a key that is not used. *)
Definition updates_incomplete : list (Batch.dict str) :=
  [ [(Batch.key_range, u "Sheet1!A1"); (Batch.key_values, u "Fecha")];
    [(Batch.key_range, u "Sheet1!A2")] ].

Definition updates_complete : list (Batch.dict str) :=
  [ [(u "note", u "header"); (Batch.key_range, u "Sheet1!A1");
     (Batch.key_values, u "Fecha")];
    [(Batch.key_values, u "100"); (Batch.key_range, u "Sheet1!A2")] ].

(** A service that answers with the number of entries it was sent. *)
Definition counting_service : Batch.service str nat := {|
  Batch.service_build := Ok tt;
  Batch.values_batchUpdate :=
    fun _ request => Ok (List.length (Batch.body_data request))
|}.

(** A sheet with a header and three expenses. *)
Definition sheet_of_three : list row :=
  [ [CellStr (u "Fecha"); CellStr (u "Hora"); CellStr (u "Comercio"); CellStr (u "Tipo")];
    [CellStr (u "01/01/2024"); CellStr (u "10:00"); CellStr (u "UNO"); CellStr (u "Débito")];
    [CellStr (u "02/01/2024"); CellStr (u "11:00"); CellStr (u "DOS"); CellStr (u "Crédito")];
    [CellStr (u "03/01/2024"); CellStr (u "12:00"); CellStr (u "TRES"); CellStr (u "Giro")] ].

Definition env_unset : environ := {| SPREADSHEET_ID := None; SHEET_NAME := None |}.

(** [Exception()]: an exception without a message, [str(e) == '']. *)
Definition nameless_failure : exn := OtherException [].

Definition silent_client : sheets_client := {|
  build := Ok tt;
  values_append := fun _ _ _ => Raise nameless_failure;
  values_get := fun _ _ => Raise nameless_failure
|}.

Definition utf8_console : console := {|
  print := fun _ => Ok tt;
  print_exc := fun _ => Ok tt
|}.

Definition broken_pipe : exn := OtherException (u "[Errno 32] Broken pipe").

(** A standard output whose reader goes away after the attempt is
    logged. *)
Definition closing_console : console := {|
  print := fun line =>
             match line with
             | LineAttempt _ | LineData _ => Ok tt
             | _ => Raise broken_pipe
             end;
  print_exc := fun _ => Ok tt
|}.

Definition body_comma : str := u "pago por $1,50".

(* ================================================================== *)
(** ** Facts about strings and about the matcher *)

Lemma strip_prefix_Some (p s rest : str) :
  strip_prefix p s = Some rest <-> s = p ++ rest.
Proof.
  revert s; induction p as [|x p IH]; intros s; simpl.
  - split; intros H; [injection H as ->|subst]; reflexivity.
  - destruct s as [|y s]; [split; discriminate|].
    destruct (N.eqb_spec x y) as [->|Hne].
    + rewrite IH. split; intros H; [subst|injection H as ->]; reflexivity.
    + split; [discriminate|]. intros H; injection H as -> _. now elim Hne.
Qed.

Lemma contains_true_iff (needle hay : str) :
  contains needle hay = true <-> is_substring needle hay.
Proof.
  unfold is_substring. induction hay as [|y hay IH].
  - simpl. destruct (strip_prefix needle []) as [rest|] eqn:E.
    + split; [intros _|reflexivity].
      apply strip_prefix_Some in E. now exists [], rest.
    + split; [discriminate|]. intros (b & a & H).
      destruct b as [|? ?]; [|discriminate]. simpl in H.
      apply (proj2 (strip_prefix_Some _ _ _)) in H. congruence.
  - cbn [contains]. destruct (strip_prefix needle (y :: hay)) as [rest|] eqn:E.
    + split; [intros _|reflexivity].
      apply strip_prefix_Some in E. now exists [], rest.
    + rewrite IH. split.
      * intros (b & a & ->). now exists (y :: b), a.
      * intros (b & a & H). destruct b as [|z b].
        -- simpl in H. apply (proj2 (strip_prefix_Some _ _ _)) in H. congruence.
        -- injection H as -> ->. now exists b, a.
Qed.

Lemma dropwhile_run (p : codepoint -> bool) (run rest : str) :
  Forall (fun c => p c = true) run ->
  match rest with c :: _ => p c = false | [] => True end ->
  dropwhile p (run ++ rest) = rest.
Proof.
  intros Hrun Hrest. induction Hrun as [|c run Hc _ IH]; simpl.
  - destruct rest as [|c rest]; [reflexivity|]. simpl. now rewrite Hrest.
  - now rewrite Hc.
Qed.

Lemma firstn_prefix (A : Type) (l1 l2 : list A) :
  firstn (List.length (l1 ++ l2) - List.length l2) (l1 ++ l2) = l1.
Proof.
  rewrite length_app.
  replace (List.length l1 + List.length l2 - List.length l2)
    with (List.length l1 + 0) by lia.
  rewrite firstn_app_2. simpl. apply app_nil_r.
Qed.

Section MatcherFacts.
Variable R : Type.

Lemma plus_greedy_cons (p : codepoint -> bool) x s (k : str -> option R) :
  plus_greedy p (x :: s) k =
  if p x then match plus_greedy p s k with
              | Some res => Some res
              | None => k s
              end
  else None.
Proof. reflexivity. Qed.

(** Nothing follows the repetition: the longest run is taken. *)
Lemma plus_greedy_total (p : codepoint -> bool) (k : str -> option R) :
  (forall s, k s <> None) ->
  forall x t,
    plus_greedy p (x :: t) k = if p x then k (dropwhile p t) else None.
Proof.
  intros Hk x t. revert x.
  induction t as [|y t IH]; intros x; rewrite plus_greedy_cons.
  - simpl. reflexivity.
  - rewrite IH. cbn [dropwhile].
    destruct (p x); [|reflexivity].
    destruct (p y); [|reflexivity].
    destruct (k (dropwhile p t)) eqn:E; [reflexivity|]. now elim (Hk _ E).
Qed.
End MatcherFacts.

Lemma search_with_unfold lit_eq (r : regex) (s : str) :
  search_with lit_eq r s =
  match match_at lit_eq r s with
  | Some m => Some m
  | None => match s with
            | [] => None
            | _ :: s' => search_with lit_eq r s'
            end
  end.
Proof. destruct s; reflexivity. Qed.

(* ================================================================== *)
(** ** The amount *)

Section AmountFacts.
Variable U : unicode_db.

Lemma match_at_amount (s : str) :
  match_at N.eqb (re_amount U) s =
  match s with
  | x :: y :: t =>
      if (DOLLAR =? x)%N && amount_class U y then
        Some {| group0 :=
                  firstn (List.length s
                          - List.length (dropwhile (amount_class U) t)) s;
                groups := [] |}
      else None
  | _ => None
  end.
Proof.
  unfold match_at, re_amount. cbn [rmatch].
  destruct s as [|x [|y t]]; [reflexivity| |].
  - destruct (DOLLAR =? x)%N; reflexivity.
  - destruct (DOLLAR =? x)%N; [|reflexivity].
    rewrite plus_greedy_total by (intros; discriminate).
    simpl. destruct (amount_class U y); reflexivity.
Qed.

Lemma match_at_amount_None (s : str) :
  match_at N.eqb (re_amount U) s = None <-> ~ amount_pattern_at U s [].
Proof.
  rewrite match_at_amount. unfold amount_pattern_at. split.
  - intros H (c & after & -> & Hc). cbn [app] in H.
    rewrite N.eqb_refl, Hc in H. discriminate.
  - intros H. destruct s as [|x [|y t]]; try reflexivity.
    destruct (N.eqb_spec DOLLAR x) as [<-|]; [|reflexivity].
    destruct (amount_class U y) eqn:Hy; [|reflexivity].
    elim H. now exists y, t.
Qed.

Lemma search_amount_None (body : str) :
  search (re_amount U) body = None <-> ~ has_amount_pattern U body.
Proof.
  unfold search, has_amount_pattern. induction body as [|x body IH].
  - split; [|reflexivity]. intros _ (b & c & a & H & _).
    destruct b; discriminate.
  - rewrite search_with_unfold.
    destruct (match_at N.eqb (re_amount U) (x :: body)) eqn:E.
    + split; [discriminate|]. intros H. elim H. exists [].
      rewrite match_at_amount in E.
      destruct body as [|y t]; [discriminate|].
      destruct (N.eqb_spec DOLLAR x) as [<-|]; [|discriminate].
      destruct (amount_class U y) eqn:Hy; [|discriminate].
      now exists y, t.
    + rewrite IH. apply match_at_amount_None in E. split.
      * intros H (b & c & a & Hb & Hc). destruct b as [|z b].
        -- elim E. now exists c, a.
        -- injection Hb as -> ->. elim H. now exists b, c, a.
      * intros H (b & c & a & -> & Hc). elim H.
        now exists (x :: b), c, a.
Qed.
End AmountFacts.

(** Case analysis on every test and every search of the classification
    and timestamp stages. *)
Ltac case_stages :=
  unfold with_merchant;
  repeat match goal with
         | |- context [if ?c then _ else _] => destruct c
         | |- context [match search ?r ?b with _ => _ end] =>
             destruct (search r b)
         | |- context [match search_ignorecase ?u ?r ?b with _ => _ end] =>
             destruct (search_ignorecase u r b)
         end.

Section AmountToken.
Variable U : unicode_db.

Lemma search_amount_first (body before tok after : str) :
  first_amount_token U body before tok after ->
  search (re_amount U) body = Some {| group0 := DOLLAR :: tok; groups := [] |}.
Proof.
  unfold search. revert body.
  induction before as [|x before IH];
    intros body (Hbody & Hne & Hcls & Hafter & Hfirst);
    rewrite search_with_unfold.
  - destruct tok as [|y tok']; [now elim Hne|].
    inversion Hcls as [|? ? Hy Htok']; subst.
    rewrite match_at_amount. cbn [app]. rewrite N.eqb_refl, Hy. cbn [andb].
    rewrite dropwhile_run by assumption.
    change (DOLLAR :: y :: tok' ++ after)
      with ((DOLLAR :: y :: tok') ++ after).
    now rewrite firstn_prefix.
  - subst body. cbn [app].
    destruct (match_at N.eqb (re_amount U) _) eqn:E.
    + exfalso. apply (Hfirst []); [simpl; lia|]. cbn [app].
      rewrite match_at_amount in E.
      destruct (before ++ DOLLAR :: tok ++ after) as [|y t] eqn:Et;
        [discriminate|].
      destruct (N.eqb_spec DOLLAR x) as [<-|]; [|discriminate].
      destruct (amount_class U y) eqn:Hy; [|discriminate].
      now exists y, t.
    + apply IH. repeat split; try assumption.
      intros b Hb (c & a & Hc & Hcc).
      apply (Hfirst (x :: b)); [simpl; lia|].
      exists c, a. split; [|assumption]. cbn [app]. now f_equal.
Qed.

Lemma amount_str_of_token (tok : str) :
  amount_str_of (DOLLAR :: tok) = strip_separators tok.
Proof.
  unfold amount_str_of, strip_separators, remove_char. cbn [filter].
  rewrite N.eqb_refl. cbn [negb].
  induction tok as [|c tok IH]; [reflexivity|]. cbn [filter].
  destruct (c =? DOLLAR)%N; cbn [negb orb filter]; [exact IH|].
  destruct (c =? DOT)%N; cbn [negb orb filter]; [exact IH|].
  destruct (c =? COMMA)%N; cbn [negb orb filter]; [exact IH|].
  now rewrite IH.
Qed.

(** What is left of a token after stripping is made of decimal digits. *)
Lemma amount_str_digits (tok : str) :
  Forall (fun c => amount_class U c = true) tok ->
  Forall (fun c => isdecimal U c = true) (strip_separators tok).
Proof.
  unfold strip_separators.
  induction 1 as [|c tok Hc _ IH]; cbn [filter]; [constructor|].
  unfold amount_class in Hc.
  destruct (c =? DOLLAR)%N; cbn [negb orb]; [exact IH|].
  destruct (c =? DOT)%N; cbn [negb orb]; [exact IH|].
  destruct (c =? COMMA)%N; cbn [negb orb]; [exact IH|].
  constructor; [|exact IH]. now rewrite !orb_false_r in Hc.
Qed.

Lemma digits_value_Some (s : str) (acc : N) :
  Forall (fun c => isdecimal U c = true) s ->
  exists n, digits_value U s acc = Some n.
Proof.
  intros H. revert acc. induction H as [|c s Hc _ IH]; intros acc; simpl.
  - now exists acc.
  - unfold isdecimal in Hc. destruct (todecimal U c); [apply IH|discriminate].
Qed.

(** [float] raises nothing but [ValueError], which the source catches. *)
Lemma amount_of_token_Ok (token : str) :
  exists a, amount_of_token U token = Ok a.
Proof.
  unfold amount_of_token, py_float.
  destruct (amount_str_of token) as [|c s]; [now eexists|].
  destruct (digits_value U (c :: s) 0); now eexists.
Qed.

Lemma amount_of_token_digits (token : str) (n : N) :
  digits_value U (amount_str_of token) 0 = Some n ->
  amount_of_token U token = Ok (binary64_of_N n).
Proof.
  unfold amount_of_token, py_float. intros H.
  destruct (amount_str_of token) as [|c s].
  - simpl in H. injection H as <-. reflexivity.
  - now rewrite H.
Qed.

(** The later stages leave the amount as the first stage set it. *)
Lemma parse_amount (body : str) (a : float) :
  amount_stage U body = Ok a ->
  exists r, parse_banco_chile_email U body = Ok r /\ amount r = a.
Proof.
  unfold amount_stage, parse_banco_chile_email. intros H.
  destruct (search (re_amount U) body) as [m|].
  - rewrite H. cbn [bind_result]. eexists. split; [reflexivity|].
    case_stages; reflexivity.
  - injection H as <-. cbn [bind_result]. eexists. split; [reflexivity|].
    case_stages; reflexivity.
Qed.
End AmountToken.

Lemma py_float_raises_ValueError (U : unicode_db) (s : str) (e : exn) :
  py_float U s = Raise e -> exists msg, e = ValueError msg.
Proof.
  unfold py_float. destruct s as [|c s].
  - intros H. injection H as <-. now eexists.
  - destruct (digits_value U (c :: s) 0); [discriminate|].
    intros H. injection H as <-. now eexists.
Qed.

(** No match starts left of [before] when [before], closed by the [$] of
    the token, has no match at all. *)
Lemma no_earlier_pattern (U : unicode_db) (before rest : str) :
  search (re_amount U) (before ++ [DOLLAR]) = None ->
  forall b, List.length b < List.length before ->
            ~ amount_pattern_at U (before ++ DOLLAR :: rest) b.
Proof.
  intros Hnone b Hlen (c & a & Heq & Hc).
  apply search_amount_None in Hnone. apply Hnone. exists b.
  apply app_eq_app in Heq as [l [[-> Hl]|[-> Hl]]].
  - destruct l as [|x l]; [rewrite app_nil_r in Hlen; lia|].
    injection Hl as <- Hl. destruct l as [|y l].
    + injection Hl as -> _. exists DOLLAR, []. split; [|assumption].
      now rewrite <- app_assoc.
    + injection Hl as -> _. exists y, (l ++ [DOLLAR]). split; [|assumption].
      now rewrite <- app_assoc.
  - rewrite length_app in Hlen. lia.
Qed.

(* ================================================================== *)
(** ** The amount is never negative *)

Lemma shr_1_nonneg mrs : (0 <= shr_m mrs)%Z -> (0 <= shr_m (shr_1 mrs))%Z.
Proof.
  destruct mrs as [m r s]. simpl.
  destruct m as [|[p|p|]|[p|p|]]; simpl; lia.
Qed.

Lemma iter_pos_invariant (A : Type) (P : A -> Prop) (f : A -> A) :
  (forall x, P x -> P (f x)) -> forall p x, P x -> P (iter_pos f p x).
Proof.
  intros Hf. induction p as [p IH|p IH|]; intros x Hx; simpl; auto.
Qed.

Lemma shr_nonneg mrs e n :
  (0 <= shr_m mrs)%Z -> (0 <= shr_m (fst (shr mrs e n)))%Z.
Proof.
  intros H. destruct n as [|p|p]; simpl; try exact H.
  apply (@iter_pos_invariant _ (fun x => (0 <= shr_m x)%Z)); auto using shr_1_nonneg.
Qed.

Lemma shr_fexp_nonneg prec emax m e l :
  (0 <= m)%Z -> (0 <= shr_m (fst (shr_fexp prec emax m e l)))%Z.
Proof.
  intros H. unfold shr_fexp. apply shr_nonneg.
  destruct l as [|[| |]]; exact H.
Qed.

Lemma round_nearest_even_nonneg m l :
  (0 <= m)%Z -> (0 <= round_nearest_even m l)%Z.
Proof.
  intros H. destruct l as [|[| |]]; simpl; try lia. destruct (Z.even m); lia.
Qed.

Lemma binary_round_aux_nonneg prec emax m e l :
  (0 <= m)%Z ->
  SFleb (S754_zero false) (binary_round_aux prec emax false m e l) = true.
Proof.
  intros H. unfold binary_round_aux.
  pose proof (@shr_fexp_nonneg prec emax m e l H) as H1.
  destruct (shr_fexp prec emax m e l) as [mrs' e'].
  simpl in H1.
  pose proof (@shr_fexp_nonneg prec emax _ e' loc_Exact
                (@round_nearest_even_nonneg _ (loc_of_shr_record mrs') H1)) as H2.
  destruct (shr_fexp prec emax _ e' loc_Exact) as [mrs'' e''].
  simpl in H2. destruct (shr_m mrs'') as [|p|p]; [reflexivity| |lia].
  destruct (e'' <=? emax - prec)%Z; reflexivity.
Qed.

Lemma binary64_of_N_nonneg n : float_nonneg (binary64_of_N n) = true.
Proof.
  unfold float_nonneg, binary64_of_N, binary_normalize, float_zero.
  destruct (Z.of_N n) as [|p|p] eqn:E; [reflexivity| |lia].
  unfold binary_round.
  destruct (shl_align p 0 _) as [mz ez].
  apply binary_round_aux_nonneg. lia.
Qed.

Lemma amount_of_token_nonneg (U : unicode_db) (token : str) (a : float) :
  amount_of_token U token = Ok a -> float_nonneg a = true.
Proof.
  unfold amount_of_token, py_float.
  destruct (amount_str_of token) as [|c s].
  - intros H. injection H as <-. reflexivity.
  - destruct (digits_value U (c :: s) 0); intros H; injection H as <-.
    + apply binary64_of_N_nonneg.
    + reflexivity.
Qed.

(** X1. The amount of a record is never negative and never a NaN: it is
    0.0, or the float of a natural number (infinity when that number is
    too large for a float). *)
Lemma amount_nonneg (U : unicode_db) (body : str) (r : TransactionParsed) :
  parse_banco_chile_email U body = Ok r -> float_nonneg (amount r) = true.
Proof.
  intros Hr.
  assert (H : exists a, amount_stage U body = Ok a /\ float_nonneg a = true).
  { unfold amount_stage. destruct (search (re_amount U) body) as [m|].
    - destruct (amount_of_token_Ok U (group0 m)) as [a Ha].
      exists a. split; [exact Ha|]. exact (amount_of_token_nonneg _ _ Ha).
    - now exists float_zero. }
  destruct H as (a & Ha & Hn).
  destruct (parse_amount U body Ha) as (r' & Hr' & <-).
  congruence.
Qed.

(* ================================================================== *)
(** ** Properties of the extractor *)

(** C7. [parse_banco_chile_email] is a function of the body alone and
    returns a record for every body: no exception leaves it.  A body
    without a currency token, and a body whose token leaves nothing that
    [float] can read, both give [amount = 0.0]. *)
Theorem extract_never_raises (U : unicode_db) (body : str) :
  exists r,
    parse_banco_chile_email U body = Ok r /\
    (search (re_amount U) body = None -> amount r = float_zero) /\
    (forall m e,
        search (re_amount U) body = Some m ->
        py_float U (amount_str_of (group0 m)) = Raise e ->
        amount r = float_zero).
Proof.
  destruct (search (re_amount U) body) as [m|] eqn:E.
  - destruct (amount_of_token_Ok U (group0 m)) as [a Ha].
    destruct (@parse_amount U body a) as (r & Hr & Hamount).
    { unfold amount_stage. now rewrite E. }
    exists r. split; [exact Hr|]. split; [discriminate|].
    intros m' e Hm He. injection Hm as <-.
    destruct (py_float_raises_ValueError _ _ He) as [msg ->].
    unfold amount_of_token in Ha. rewrite He in Ha. simpl in Ha. congruence.
  - destruct (@parse_amount U body float_zero) as (r & Hr & Hamount).
    { unfold amount_stage. now rewrite E. }
    exists r. split; [exact Hr|]. split; [intros _; exact Hamount|].
    intros m e Hm. discriminate.
Qed.

(** C3 as first worded fails: "Giro en cajero el 05/02/2026 16:23" has no
    currency token, and its record still carries a kind, a merchant and a
    timestamp. *)
Lemma no_amount_fields_still_extracted :
  ~ no_amount_means_all_absent ucd_latin body_giro.
Proof.
  intros H. destruct H as (r & Hr & _ & Hcard & _).
  - apply search_amount_None. vm_compute. reflexivity.
  - vm_compute in Hr. injection Hr as <-. discriminate Hcard.
Qed.

Lemma parse_body_purchase :
  parse_banco_chile_email ucd_latin body_purchase = Ok record_purchase.
Proof. vm_compute. reflexivity. Qed.

Lemma record_purchase_nonzero : float_is_zero (amount record_purchase) = false.
Proof. vm_compute. reflexivity. Qed.

(** C4. On the sample body the extractor finds the amount 122000, the
    kind "Crédito", the merchant "SII 11001SANTIAGOCL", and the timestamp
    made of the date 05/02/2026 and the time 16:23. *)
Theorem extract_sample_purchase :
  parse_banco_chile_email ucd_latin body_purchase
  = Ok {| amount := binary64_of_N 122000;
          card_type := Some (u "Crédito");
          merchant := Some (u "SII 11001SANTIAGOCL");
          datetime := Some (u "05/02/2026 16:23") |} /\
  float_is_int (binary64_of_N 122000) 122000 /\
  option_map (fun m => (group m 1, group m 2))
    (search (re_datetime ucd_latin) body_purchase)
  = Some (u "05/02/2026", u "16:23").
Proof.
  split; [exact parse_body_purchase|]. split; vm_compute; reflexivity.
Qed.

(** C5. A body whose lowercase form contains "giro" or "cajero" is a
    withdrawal: the kind is "Giro" and the merchant is "Cajero Automático",
    whatever else the body holds, the other trigger phrases included. *)
Theorem withdrawal_takes_precedence (U : unicode_db) (body : str) :
  is_substring kw_giro (str_lower U body) \/
  is_substring kw_cajero (str_lower U body) ->
  exists r,
    parse_banco_chile_email U body = Ok r /\
    card_type r = Some GIRO /\ merchant r = Some CAJERO_AUTOMATICO.
Proof.
  intros H.
  assert (Hc : contains kw_giro (str_lower U body)
               || contains kw_cajero (str_lower U body) = true).
  { apply orb_true_iff. destruct H as [H|H]; [left|right];
      now apply contains_true_iff. }
  unfold parse_banco_chile_email.
  assert (Hs : exists res,
             match search (re_amount U) body with
             | Some amount_match =>
                 bind_result (amount_of_token U (group0 amount_match))
                   (fun a => Ok (set_amount
                      {| amount := float_zero; card_type := None;
                         merchant := None; datetime := None |} a))
             | None => Ok {| amount := float_zero; card_type := None;
                             merchant := None; datetime := None |}
             end = Ok res).
  { destruct (search (re_amount U) body) as [m|]; [|now eexists].
    destruct (amount_of_token_Ok U (group0 m)) as [a ->]. now eexists. }
  destruct Hs as [res ->]. cbn [bind_result]. rewrite Hc.
  cbn [set_card_type set_merchant card_type truthy GIRO negb].
  destruct (search (re_datetime U) body); eexists; split; try reflexivity;
    split; reflexivity.
Qed.

Lemma withdrawal_takes_precedence_witness :
  (is_substring kw_giro (str_lower ucd_latin body_cajero) \/
   is_substring kw_cajero (str_lower ucd_latin body_cajero)) /\
  is_substring kw_cargo_a_cuenta (str_lower ucd_latin body_cajero) /\
  is_substring kw_tarjeta_de_credito (str_lower ucd_latin body_cajero) /\
  exists r,
    parse_banco_chile_email ucd_latin body_cajero = Ok r /\
    card_type r = Some GIRO /\ merchant r = Some CAJERO_AUTOMATICO.
Proof.
  split; [right; apply contains_true_iff; vm_compute; reflexivity|].
  split; [apply contains_true_iff; vm_compute; reflexivity|].
  split; [apply contains_true_iff; vm_compute; reflexivity|].
  apply (@withdrawal_takes_precedence ucd_latin body_cajero).
  right. apply contains_true_iff. vm_compute. reflexivity.
Defined.

Example amount_of_sample_token :
  amount_of_token ucd_latin (u "$122.000") = Ok (binary64_of_N 122000)
  /\ float_is_int (binary64_of_N 122000) 122000.
Proof. split; vm_compute; reflexivity. Qed.

(** C10, at the input where it fails.  A body with "Tarjeta de Crédıto"
    (dotless i, U+0131) is matched by the case-insensitive fallback and
    its capitalized text becomes the kind: a fifth value. *)
Theorem card_type_fifth_value :
  exists r,
    parse_banco_chile_email ucd_latin (u "Tarjeta de Crédıto") = Ok r /\
    card_type r = Some (u "Crédıto") /\
    card_type r <> None /\ card_type r <> Some GIRO /\
    card_type r <> Some DEBITO /\ card_type r <> Some CREDITO.
Proof.
  eexists. split; [vm_compute; reflexivity|].
  repeat split; vm_compute; congruence.
Qed.

(* ================================================================== *)
(** ** Properties of the orchestrator *)

Section OrchestratorFacts.
Variable U : unicode_db.
Variable env : environ.
Variable client : sheets_client.

Lemma parse_email_zero (email : EmailRequest) (r : TransactionParsed) log :
  parse_banco_chile_email U (body email) = Ok r ->
  float_is_zero (amount r) = true ->
  parse_email U env client email log
  = (Returned {| status := st_error; transaction := None;
                 message := Some msg_no_transaction |}, log).
Proof.
  intros Hr Hz. unfold parse_email, or_http_500, io_bind, io_lift.
  rewrite Hr, Hz. reflexivity.
Qed.

Lemma parse_email_nonzero (email : EmailRequest) (r : TransactionParsed) log :
  parse_banco_chile_email U (body email) = Ok r ->
  float_is_zero (amount r) = false ->
  parse_email U env client email log
  = match save_to_sheets env client r log with
    | (Ok outcome, log') =>
        (Returned {| status := st_success; transaction := Some r;
                     message := Some (response_message outcome) |}, log')
    | (Raise e, log') => (HTTPException 500 (exn_str e), log')
    end.
Proof.
  intros Hr Hz. unfold parse_email, or_http_500, io_bind, io_lift.
  rewrite Hr, Hz.
  destruct (save_to_sheets env client r log) as [[o|e] log']; reflexivity.
Qed.

Lemma save_unconfigured (t : TransactionParsed) log :
  truthy (SPREADSHEET_ID env) = false ->
  save_to_sheets env client t log
  = (Ok {| sheets_saved := false; sheets_error := Some err_not_configured;
           sheets_details := None |}, log).
Proof. intros H. unfold save_to_sheets. now rewrite H. Qed.

Lemma save_raises (t : TransactionParsed) (e : exn) log :
  truthy (SPREADSHEET_ID env) = true ->
  client_raises client e ->
  exists log',
    save_to_sheets env client t log
    = (Ok {| sheets_saved := false; sheets_error := Some (exn_str e);
             sheets_details := None |}, log').
Proof.
  intros H Hc. unfold save_to_sheets. rewrite H. cbn [negb].
  unfold try_except, write_to_sheet, get_sheets_service, io_bind, io_call,
    io_ret.
  destruct Hc as [Hb|[Hb Ha]]; rewrite Hb.
  - now eexists.
  - rewrite Ha. now eexists.
Qed.
End OrchestratorFacts.

Lemma response_message_error (reason : str) :
  response_message {| sheets_saved := false; sheets_error := Some reason;
                      sheets_details := None |}
  = match reason with
    | [] => msg_not_configured
    | _ => msg_not_saved ++ reason
    end.
Proof. destruct reason; reflexivity. Qed.

(** C2. When the body gives the amount 0, [parse_email] returns status
    "error", no transaction and the fixed message, and the log of calls to
    the Sheets client is what it was: nothing was sent. *)
Theorem no_transaction_no_persistence
    (U : unicode_db) (env : environ) (client : sheets_client)
    (email : EmailRequest) (r : TransactionParsed) log :
  parse_banco_chile_email U (body email) = Ok r ->
  float_is_zero (amount r) = true ->
  parse_email U env client email log
  = (Returned {| status := st_error; transaction := None;
                 message := Some msg_no_transaction |}, log).
Proof. apply parse_email_zero. Qed.

Lemma no_transaction_no_persistence_witness :
  exists r,
    parse_banco_chile_email ucd_latin (body email_greeting) = Ok r /\
    float_is_zero (amount r) = true /\
    parse_email ucd_latin env_configured failing_client email_greeting []
    = (Returned {| status := st_error; transaction := None;
                   message := Some msg_no_transaction |}, []).
Proof.
  assert (H : exists r,
             parse_banco_chile_email ucd_latin (body email_greeting) = Ok r /\
             float_is_zero (amount r) = true).
  { eexists. split; [vm_compute; reflexivity|reflexivity]. }
  destruct H as (r & Hr & Hz).
  exists r. split; [exact Hr|]. split; [exact Hz|].
  exact (@no_transaction_no_persistence ucd_latin env_configured
           failing_client email_greeting r [] Hr Hz).
Defined.

(** C8. When the body gives a non-zero amount and [SPREADSHEET_ID] is
    unset or empty, nothing is sent to the Sheets client, and the response
    has status "success", the transaction, and the message of a failed
    save whose reason is the missing configuration: the response a
    configured destination gives when the append raises with that text. *)
Theorem unconfigured_destination_skips_persistence
    (U : unicode_db) (env : environ) (client : sheets_client)
    (email : EmailRequest) (r : TransactionParsed) log :
  parse_banco_chile_email U (body email) = Ok r ->
  float_is_zero (amount r) = false ->
  truthy (SPREADSHEET_ID env) = false ->
  parse_email U env client email log
  = (Returned {| status := st_success; transaction := Some r;
                 message := Some (msg_not_saved ++ err_not_configured) |},
     log)
  /\
  forall env' client' e,
    truthy (SPREADSHEET_ID env') = true ->
    client_raises client' e ->
    exn_str e = err_not_configured ->
    exists log',
      parse_email U env' client' email log
      = (Returned {| status := st_success; transaction := Some r;
                     message := Some (msg_not_saved ++ err_not_configured) |},
         log').
Proof.
  intros Hr Hz Hid. split.
  - rewrite (parse_email_nonzero U env client email log Hr Hz).
    now rewrite save_unconfigured.
  - intros env' client' e Hid' Hc He.
    destruct (save_raises env' r log Hid' Hc) as [log' Hs].
    exists log'.
    rewrite (parse_email_nonzero U env' client' email log Hr Hz), Hs.
    rewrite response_message_error, He. reflexivity.
Qed.

Lemma unconfigured_destination_skips_persistence_witness :
  exists r,
    parse_banco_chile_email ucd_latin (body email_purchase) = Ok r /\
    float_is_zero (amount r) = false /\
    truthy (SPREADSHEET_ID env_unset) = false /\
    parse_email ucd_latin env_unset failing_client email_purchase []
    = (Returned {| status := st_success; transaction := Some r;
                   message := Some (msg_not_saved ++ err_not_configured) |},
       []).
Proof.
  exists record_purchase.
  split; [exact parse_body_purchase|]. split; [exact record_purchase_nonzero|].
  split; [reflexivity|].
  exact (proj1 (@unconfigured_destination_skips_persistence ucd_latin
                  env_unset failing_client email_purchase record_purchase []
                  parse_body_purchase record_purchase_nonzero eq_refl)).
Defined.

(** [get_expenses] hands on every row the service answers with. *)
Lemma get_expenses_passes_through (env : environ) (client : sheets_client)
    (limit offset : Z) (rows : list row) log :
  build client = Ok tt ->
  (forall id, values_get client id (expenses_range limit offset)
              = Ok (Some rows)) ->
  exists log',
    get_expenses env client limit offset log
    = (Returned {| exp_status := st_success; count := List.length rows;
                   data := rows |}, log').
Proof.
  intros Hb Hg.
  unfold get_expenses, or_http_500, read_from_sheet, get_sheets_service,
    io_bind, io_call, io_ret.
  rewrite Hb, Hg. now eexists.
Qed.

(** C9, at an input where it fails.  With [limit = 1] and [offset = 0]
    the range asked for is [Gastos!A2:D3], which starts at row 2 and spans
    two rows, and both are returned. *)
Theorem get_expenses_returns_one_row_too_many :
  exists resp,
    get_expenses env_unset (Sheet.client sheet_of_three) 1 0 []
    = (Returned resp,
       [EvBuild; EvGet default_spreadsheet_id (u "Gastos!A2:D3")]) /\
    expenses_range 1 0 = u "Gastos!A2:D3" /\
    count resp = 2 /\
    data resp = firstn 2 (skipn 1 sheet_of_three).
Proof.
  eexists. split; [vm_compute; reflexivity|].
  repeat split; vm_compute; reflexivity.
Qed.

(* ================================================================== *)
(** ** More facts about the matcher *)

Lemma consume_app (a b : list (codepoint -> bool)) (s : str) :
  consume (a ++ b) s
  = match consume a s with Some s' => consume b s' | None => None end.
Proof.
  revert s. induction a as [|p a IH]; intros s; simpl; [reflexivity|].
  destruct s as [|x s]; [reflexivity|]. destruct (p x); [apply IH|reflexivity].
Qed.

Lemma consume_Some (ps : list (codepoint -> bool)) (s s' : str) :
  consume ps s = Some s' <-> exists w, s = w ++ s' /\ passes ps w.
Proof.
  revert s. induction ps as [|p ps IH]; intros s; simpl.
  - split.
    + intros H. injection H as <-. exists []. split; [reflexivity|constructor].
    + intros (w & -> & Hw). inversion Hw. reflexivity.
  - destruct s as [|x s].
    + split; [discriminate|]. intros (w & Hs & Hw).
      inversion Hw; subst. discriminate.
    + destruct (p x) eqn:Hp.
      * rewrite IH. split.
        -- intros (w & -> & Hw). exists (x :: w). split; [reflexivity|].
           now constructor.
        -- intros (w & Hs & Hw). inversion Hw as [|? y ? w' ? Hw']; subst.
           injection Hs as <- ->. now exists w'.
      * split; [discriminate|]. intros (w & Hs & Hw).
        inversion Hw as [|? y ? w' Hy Hw']; subst.
        injection Hs as <- _. congruence.
Qed.

Section MatcherTheory.
Variable lit_eq : codepoint -> codepoint -> bool.
Variable R : Type.

Lemma rmatch_atoms (r : regex) (ps : list (codepoint -> bool)) :
  atoms lit_eq r = Some ps ->
  forall s caps (k : str -> list str -> option R),
    rmatch lit_eq r s caps k
    = match consume ps s with Some s' => k s' caps | None => None end.
Proof.
  revert ps. induction r as [c|p|r1 IH1 r2 IH2| | | |]; intros ps H;
    try discriminate; simpl in H.
  - injection H as <-. intros [|x s] caps k; simpl; [reflexivity|].
    now destruct (lit_eq c x).
  - injection H as <-. intros [|x s] caps k; simpl; [reflexivity|].
    now destruct (p x).
  - destruct (atoms lit_eq r1) as [a1|]; [|discriminate].
    destruct (atoms lit_eq r2) as [a2|]; [|discriminate].
    injection H as <-. intros s caps k. cbn [rmatch].
    rewrite (IH1 a1 eq_refl), consume_app.
    destruct (consume a1 s); [apply (IH2 a2 eq_refl)|reflexivity].
Qed.

Lemma plus_lazy_Some (p : codepoint -> bool) (s : str) (k : str -> option R) res :
  plus_lazy p s k = Some res ->
  exists run rest,
    s = run ++ rest /\ run <> [] /\ Forall (fun c => p c = true) run /\
    k rest = Some res.
Proof.
  induction s as [|x s IH]; simpl; [discriminate|].
  destruct (p x) eqn:Hp; [|discriminate].
  destruct (k s) eqn:Hk.
  - intros H. injection H as <-. exists [x], s.
    repeat split; [discriminate|now repeat constructor|assumption].
  - intros H. destruct (IH H) as (run & rest & -> & _ & Hrun & Hrest).
    exists (x :: run), rest. repeat split; [discriminate|now constructor|assumption].
Qed.

Lemma plus_greedy_Some (p : codepoint -> bool) (s : str) (k : str -> option R) res :
  plus_greedy p s k = Some res ->
  exists run rest,
    s = run ++ rest /\ run <> [] /\ Forall (fun c => p c = true) run /\
    k rest = Some res.
Proof.
  revert res. induction s as [|x s IH]; intros res; simpl; [discriminate|].
  destruct (p x) eqn:Hp; [|discriminate].
  destruct (plus_greedy p s k) eqn:Hg.
  - intros H. injection H as <-.
    destruct (IH _ eq_refl) as (run & rest & -> & _ & Hrun & Hrest).
    exists (x :: run), rest. repeat split; [discriminate|now constructor|assumption].
  - intros H. exists [x], s.
    repeat split; [discriminate|now repeat constructor|assumption].
Qed.

(** A pattern without groups hands the captures on as they were, after
    some prefix of the subject. *)
Lemma rmatch_group_free (r : regex) :
  group_free r = true ->
  forall s caps (k : str -> list str -> option R) res,
    rmatch lit_eq r s caps k = Some res ->
    exists w rest, s = w ++ rest /\ k rest caps = Some res.
Proof.
  induction r as [c|p|r1 IH1 r2 IH2|r1 IH1 r2 IH2|p|p|r IH];
    intros Hg s caps k res; simpl in Hg; try discriminate; cbn [rmatch].
  - destruct s as [|x s]; [discriminate|]. destruct (lit_eq c x); [|discriminate].
    intros H. now exists [x], s.
  - destruct s as [|x s]; [discriminate|]. destruct (p x); [|discriminate].
    intros H. now exists [x], s.
  - apply andb_true_iff in Hg as [Hg1 Hg2]. intros H.
    destruct (IH1 Hg1 _ _ _ _ H) as (w1 & s1 & -> & H1).
    destruct (IH2 Hg2 _ _ _ _ H1) as (w2 & s2 & -> & H2).
    exists (w1 ++ w2), s2. now rewrite <- app_assoc.
  - apply andb_true_iff in Hg as [Hg1 Hg2].
    destruct (rmatch lit_eq r1 s caps k) eqn:E.
    + intros H. injection H as <-. exact (IH1 Hg1 _ _ _ _ E).
    + intros H. exact (IH2 Hg2 _ _ _ _ H).
  - intros H. destruct (plus_greedy_Some _ _ _ H) as (run & rest & -> & _ & _ & Hk).
    now exists run, rest.
  - intros H. destruct (plus_lazy_Some _ _ _ H) as (run & rest & -> & _ & _ & Hk).
    now exists run, rest.
Qed.

Lemma search_with_Some (r : regex) (s : str) (m : match_object) :
  search_with lit_eq r s = Some m ->
  exists before s0, s = before ++ s0 /\ match_at lit_eq r s0 = Some m.
Proof.
  induction s as [|x s IH].
  - simpl. destruct (match_at lit_eq r []) eqn:E; [|discriminate].
    intros H. injection H as <-. now exists [], [].
  - rewrite search_with_unfold.
    destruct (match_at lit_eq r (x :: s)) eqn:E.
    + intros H. injection H as <-. now exists [], (x :: s).
    + intros H. destruct (IH H) as (b & s0 & -> & Hm). now exists (x :: b), s0.
Qed.
End MatcherTheory.

Section MoreMatcher.
Variable lit_eq : codepoint -> codepoint -> bool.
Variable R : Type.

Lemma rmatch_Cat (r1 r2 : regex) s caps (k : str -> list str -> option R) :
  rmatch lit_eq (r1 +++ r2) s caps k
  = rmatch lit_eq r1 s caps (fun s' caps' => rmatch lit_eq r2 s' caps' k).
Proof. reflexivity. Qed.

Lemma rmatch_Group_atoms (r : regex) (ps : list (codepoint -> bool)) :
  atoms lit_eq r = Some ps ->
  forall s caps (k : str -> list str -> option R),
    rmatch lit_eq (Group r) s caps k
    = match consume ps s with
      | Some s' => k s' (caps ++ [firstn (List.length s - List.length s') s])
      | None => None
      end.
Proof. intros H s caps k. cbn [rmatch]. now rewrite (@rmatch_atoms lit_eq R r ps H). Qed.

Lemma atoms_lits (s : str) (last : codepoint) :
  atoms lit_eq (lits s last) = Some (map lit_eq (s ++ [last])).
Proof.
  induction s as [|c s IH]; simpl; [reflexivity|]. now rewrite IH.
Qed.

Lemma atoms_lit_string (s : str) :
  s <> [] -> atoms lit_eq (lit_string s) = Some (map lit_eq s).
Proof.
  intros Hs. unfold lit_string.
  destruct (rev s) as [|last front] eqn:E.
  - apply (f_equal (@rev _)) in E. rewrite rev_involutive in E. now elim Hs.
  - rewrite atoms_lits. apply (f_equal (@rev _)) in E.
    rewrite rev_involutive in E. simpl in E. now rewrite E.
Qed.
End MoreMatcher.

Lemma passes_literal (l w : str) : passes (map N.eqb l) w -> w = l.
Proof.
  revert w. induction l as [|c l IH]; intros w H; inversion H as [|? x ? w' Hx Hw]; subst.
  - reflexivity.
  - apply N.eqb_eq in Hx. subst. f_equal. now apply IH.
Qed.

Lemma consume_literal (l s s' : str) :
  consume (map N.eqb l) s = Some s' -> s = l ++ s'.
Proof.
  intros H. apply consume_Some in H as (w & -> & Hw).
  now rewrite (@passes_literal l w Hw).
Qed.

Lemma firstn_consumed (ps : list (codepoint -> bool)) (s s' : str) :
  consume ps s = Some s' ->
  exists w, s = w ++ s' /\ passes ps w /\
            firstn (List.length s - List.length s') s = w.
Proof.
  intros H. apply consume_Some in H as (w & -> & Hw).
  exists w. repeat split; [assumption|apply firstn_prefix].
Qed.

Section PatternShapes.
Variable U : unicode_db.

Lemma atoms_date :
  atoms N.eqb (times 2 (digit U) +++ Lit SLASH +++ times 2 (digit U)
               +++ Lit SLASH +++ times 4 (digit U))
  = Some (date_tests U).
Proof. reflexivity. Qed.

Lemma atoms_time :
  atoms N.eqb (times 2 (digit U) +++ Lit COLON +++ times 2 (digit U))
  = Some (time_tests U).
Proof. reflexivity. Qed.

(** A match of the timestamp pattern: "el ", a date, a space, a time. *)
Lemma match_at_datetime (s : str) (m : match_object) :
  match_at N.eqb (re_datetime U) s = Some m ->
  exists dt tm rest,
    s = kw_el_space ++ dt ++ SPACE :: tm ++ rest /\
    passes (date_tests U) dt /\ passes (time_tests U) tm /\
    groups m = [dt; tm].
Proof.
  unfold match_at, re_datetime. rewrite rmatch_Cat.
  rewrite (@rmatch_atoms N.eqb _ (lit_string (u "el "))
             (map N.eqb kw_el_space) eq_refl).
  destruct (consume _ s) as [s1|] eqn:E1; [|discriminate].
  apply consume_literal in E1. rewrite rmatch_Cat.
  rewrite (@rmatch_Group_atoms N.eqb _ _ _ atoms_date).
  destruct (consume (date_tests U) s1) as [s2|] eqn:E2; [|discriminate].
  destruct (@firstn_consumed _ _ _ E2) as (dt & Hs1 & Hdt & ->).
  rewrite rmatch_Cat.
  rewrite (@rmatch_atoms N.eqb _ (Lit SPACE) [N.eqb SPACE] eq_refl).
  destruct (consume _ s2) as [s3|] eqn:E3; [|discriminate].
  apply (consume_literal [SPACE]) in E3.
  rewrite (@rmatch_Group_atoms N.eqb _ _ _ atoms_time).
  destruct (consume (time_tests U) s3) as [s4|] eqn:E4; [|discriminate].
  destruct (@firstn_consumed _ _ _ E4) as (tm & Hs3 & Htm & ->).
  intros H. injection H as <-. exists dt, tm, s4. subst. cbn [groups app].
  repeat split; assumption.
Qed.

(** A match of the merchant pattern: "en ", one line of text, blanks,
    "el", blanks, a digit; the group is the text. *)
Lemma match_at_merchant (s : str) (m : match_object) :
  match_at N.eqb (re_merchant U) s = Some m ->
  exists raw sp1 sp2 dg rest,
    s = kw_en ++ raw ++ sp1 ++ kw_el ++ sp2 ++ dg :: rest /\
    raw <> [] /\ Forall (fun c => not_newline c = true) raw /\
    sp1 <> [] /\ Forall (fun c => isspace U c = true) sp1 /\
    sp2 <> [] /\ Forall (fun c => isspace U c = true) sp2 /\
    isdecimal U dg = true /\
    groups m = [raw].
Proof.
  unfold match_at, re_merchant. rewrite rmatch_Cat.
  rewrite (@rmatch_atoms N.eqb _ (lit_string (u "en "))
             (map N.eqb kw_en) eq_refl).
  destruct (consume _ s) as [s1|] eqn:E1; [|discriminate].
  apply consume_literal in E1. rewrite rmatch_Cat. cbn [rmatch].
  intros H. apply plus_lazy_Some in H as (raw & s2 & -> & Hraw & Hnl & H).
  rewrite firstn_prefix in H.
  apply plus_greedy_Some in H as (sp1 & s3 & -> & Hsp1 & Hws1 & H).
  rewrite (@rmatch_atoms N.eqb _ (lit_string (u "el"))
             (map N.eqb kw_el) eq_refl) in H.
  destruct (consume _ s3) as [s4|] eqn:E4; [|discriminate].
  apply consume_literal in E4. subst s3.
  apply plus_greedy_Some in H as (sp2 & s5 & -> & Hsp2 & Hws2 & H).
  destruct s5 as [|dg rest]; [discriminate|].
  destruct (isdecimal U dg) eqn:Hdg; [|discriminate].
  injection H as <-. exists raw, sp1, sp2, dg, rest. subst s.
  repeat split; assumption.
Qed.
End PatternShapes.

(* ================================================================== *)
(** ** The stages of the extractor *)

Section StageFacts.
Variable U : unicode_db.
Variable body : str.

Lemma parse_stages :
  parse_banco_chile_email U body
  = bind_result (amount_stage U body)
      (fun a => Ok (timestamp U body
                      (fallback U body
                         (classify U body (set_amount init_result a))))).
Proof.
  unfold parse_banco_chile_email, amount_stage.
  destruct (search (re_amount U) body) as [m|]; [|reflexivity].
  destruct (amount_of_token U (group0 m)); reflexivity.
Qed.

Lemma parse_Ok (r : TransactionParsed) :
  parse_banco_chile_email U body = Ok r ->
  exists a,
    r = timestamp U body
          (fallback U body (classify U body (set_amount init_result a))).
Proof.
  rewrite parse_stages. destruct (amount_stage U body) as [a|e]; [|discriminate].
  intros H. injection H as <-. now exists a.
Qed.

Lemma amount_stage_Ok : exists a, amount_stage U body = Ok a.
Proof.
  unfold amount_stage. destruct (search (re_amount U) body) as [m|].
  - apply amount_of_token_Ok.
  - now exists float_zero.
Qed.

Lemma parse_total :
  exists a,
    parse_banco_chile_email U body
    = Ok (timestamp U body
            (fallback U body (classify U body (set_amount init_result a)))).
Proof.
  destruct amount_stage_Ok as [a Ha].
  rewrite parse_stages, Ha. now exists a.
Qed.

Lemma parse_returns : exists r, parse_banco_chile_email U body = Ok r.
Proof. destruct parse_total as [a Ha]. eexists. exact Ha. Qed.

Lemma timestamp_keeps (result : TransactionParsed) :
  card_type (timestamp U body result) = card_type result /\
  merchant (timestamp U body result) = merchant result /\
  amount (timestamp U body result) = amount result.
Proof. unfold timestamp. now destruct (search (re_datetime U) body). Qed.

Lemma fallback_keeps_merchant (result : TransactionParsed) :
  merchant (fallback U body result) = merchant result.
Proof.
  unfold fallback. destruct (negb _); [|reflexivity].
  now destruct (search_ignorecase U re_card_type body).
Qed.

Lemma fallback_keeps_known (result : TransactionParsed) :
  truthy (card_type result) = true ->
  fallback U body result = result.
Proof. unfold fallback. now intros ->. Qed.

Lemma with_merchant_fields (result : TransactionParsed) :
  card_type (with_merchant U result body) = card_type result /\
  merchant (with_merchant U result body)
  = match found_merchant U body with
    | Some m => Some m
    | None => merchant result
    end.
Proof.
  unfold with_merchant, found_merchant.
  now destruct (search (re_merchant U) body).
Qed.

Lemma not_substring (needle hay : str) :
  ~ is_substring needle hay -> contains needle hay = false.
Proof.
  intros H. destruct (contains needle hay) eqn:E; [|reflexivity].
  now apply contains_true_iff in E.
Qed.
End StageFacts.

(* ------------------------------------------------------------------ *)
Section Classification.
Variable U : unicode_db.
Variable body : str.


(** X3. A body that mentions "cargo a cuenta" and no withdrawal word is a
    debit, whether or not it also mentions "tarjeta de crédito". *)
Theorem debit_before_credit :
  ~ is_substring kw_giro (str_lower U body) -> ~ is_substring kw_cajero (str_lower U body) ->
  is_substring kw_cargo_a_cuenta (str_lower U body) ->
  exists r,
    parse_banco_chile_email U body = Ok r /\
    card_type r = Some DEBITO /\ merchant r = found_merchant U body.
Proof.
  intros Hg Hc Hd. apply not_substring in Hg, Hc.
  apply contains_true_iff in Hd.
  destruct (parse_total U body) as [a ->]. eexists. split; [reflexivity|].
  destruct (timestamp_keeps U body
              (fallback U body (classify U body (set_amount init_result a))))
    as (-> & -> & _).
  unfold classify. rewrite Hg, Hc, Hd. cbn [orb].
  destruct (with_merchant_fields U body
              (set_card_type (set_amount init_result a) (Some DEBITO)))
    as (Hct & Hm).
  rewrite fallback_keeps_known by (rewrite Hct; reflexivity).
  rewrite Hct, Hm. split; [reflexivity|].
  now destruct (found_merchant U body).
Qed.

(** X4. A body that mentions "tarjeta de crédito" and none of the words
    tried before it is a credit purchase. *)
Theorem credit_when_nothing_earlier :
  ~ is_substring kw_giro (str_lower U body) -> ~ is_substring kw_cajero (str_lower U body) ->
  ~ is_substring kw_cargo_a_cuenta (str_lower U body) ->
  is_substring kw_tarjeta_de_credito (str_lower U body) ->
  exists r,
    parse_banco_chile_email U body = Ok r /\
    card_type r = Some CREDITO /\ merchant r = found_merchant U body.
Proof.
  intros Hg Hc Hd Ht. apply not_substring in Hg, Hc, Hd.
  apply contains_true_iff in Ht.
  destruct (parse_total U body) as [a ->]. eexists. split; [reflexivity|].
  destruct (timestamp_keeps U body
              (fallback U body (classify U body (set_amount init_result a))))
    as (-> & -> & _).
  unfold classify. rewrite Hg, Hc, Hd, Ht. cbn [orb].
  destruct (with_merchant_fields U body
              (set_card_type (set_amount init_result a) (Some CREDITO)))
    as (Hct & Hm).
  rewrite fallback_keeps_known by (rewrite Hct; reflexivity).
  rewrite Hct, Hm. split; [reflexivity|].
  now destruct (found_merchant U body).
Qed.

(** X5. Without any of the four words the merchant stays absent, and the
    kind is the capitalized text of a case-insensitive "Tarjeta de
    Crédito" or "Tarjeta de Débito", or absent. *)
Theorem unclassified_body :
  ~ is_substring kw_giro (str_lower U body) -> ~ is_substring kw_cajero (str_lower U body) ->
  ~ is_substring kw_cargo_a_cuenta (str_lower U body) ->
  ~ is_substring kw_tarjeta_de_credito (str_lower U body) ->
  exists r,
    parse_banco_chile_email U body = Ok r /\
    merchant r = None /\
    card_type r
    = option_map (fun m => str_capitalize U (group m 1))
        (search_ignorecase U re_card_type body).
Proof.
  intros Hg Hc Hd Ht. apply not_substring in Hg, Hc, Hd, Ht.
  destruct (parse_total U body) as [a ->]. eexists. split; [reflexivity|].
  destruct (timestamp_keeps U body
              (fallback U body (classify U body (set_amount init_result a))))
    as (-> & -> & _).
  unfold classify. rewrite Hg, Hc, Hd, Ht. cbn [orb].
  rewrite fallback_keeps_merchant. split; [reflexivity|].
  unfold fallback. cbn [set_amount init_result card_type truthy negb].
  now destruct (search_ignorecase U re_card_type body).
Qed.
End Classification.

(* ================================================================== *)
(** ** The merchant *)

Lemma dropwhile_suffix (p : codepoint -> bool) (s : str) :
  exists dropped, s = dropped ++ dropwhile p s /\
                  Forall (fun c => p c = true) dropped.
Proof.
  induction s as [|x s (d & Hs & Hd)]; simpl.
  - now exists [].
  - destruct (p x) eqn:Hp.
    + exists (x :: d). split; [simpl; now f_equal|now constructor].
    + now exists [].
Qed.

Lemma dropwhile_head (p : codepoint -> bool) (s : str) x rest :
  dropwhile p s = x :: rest -> p x = false.
Proof.
  induction s as [|y s IH]; simpl; [discriminate|].
  destruct (p y) eqn:Hp; [exact IH|]. intros H. injection H as <- _. exact Hp.
Qed.

(** [str.strip] keeps a stretch of the text, with no blank at either
    end. *)
Lemma str_strip_spec (U : unicode_db) (s : str) :
  (exists before after, s = before ++ str_strip U s ++ after) /\
  trimmed (isspace U) (str_strip U s).
Proof.
  unfold str_strip.
  destruct (dropwhile_suffix (isspace U) s) as (d1 & Hs & _).
  set (t := dropwhile (isspace U) s) in *.
  destruct (dropwhile_suffix (isspace U) (rev t)) as (d2 & Ht & _).
  set (v := dropwhile (isspace U) (rev t)) in *.
  assert (Htv : t = rev v ++ rev d2).
  { rewrite <- rev_app_distr, <- Ht. now rewrite rev_involutive. }
  split.
  - exists d1, (rev d2). now rewrite <- Htv.
  - split.
    + intros x rest Hx. destruct (rev v) as [|y w] eqn:Ev; [discriminate|].
      injection Hx as -> ->. simpl in Htv.
      exact (dropwhile_head _ _ Htv).
    + intros front x Hx. apply (f_equal (@rev _)) in Hx.
      rewrite rev_involutive, rev_app_distr in Hx. simpl in Hx.
      exact (dropwhile_head _ _ Hx).
Qed.

Lemma Forall_stretch (A : Type) (P : A -> Prop) (before mid after : list A) :
  Forall P (before ++ mid ++ after) -> Forall P mid.
Proof.
  intros H. apply Forall_app in H as [_ H]. now apply Forall_app in H as [H _].
Qed.

Section MerchantFacts.
Variable U : unicode_db.
Variable body : str.

(** Where the merchant of a debit or credit comes from. *)
Lemma found_merchant_origin (m : str) :
  found_merchant U body = Some m ->
  exists raw,
    m = str_strip U raw /\ raw <> [] /\
    Forall (fun c => not_newline c = true) raw /\
    is_substring (kw_en ++ raw) body.
Proof.
  unfold found_merchant.
  destruct (search (re_merchant U) body) as [mm|] eqn:E; [|discriminate].
  intros H. injection H as <-.
  apply search_with_Some in E as (before & s0 & -> & E).
  apply match_at_merchant in E
    as (raw & sp1 & sp2 & dg & rest & -> & Hraw & Hnl & _ & _ & _ & _ & _ & Hg).
  exists raw. unfold group. rewrite Hg. cbn [nth Nat.sub].
  repeat split; try assumption.
  exists before, (sp1 ++ kw_el ++ sp2 ++ dg :: rest).
  now rewrite <- !app_assoc.
Qed.

Lemma parse_merchant (r : TransactionParsed) (m : str) :
  parse_banco_chile_email U body = Ok r ->
  merchant r = Some m ->
  (card_type r = Some GIRO /\ m = CAJERO_AUTOMATICO) \/
  ((card_type r = Some DEBITO \/ card_type r = Some CREDITO) /\
   found_merchant U body = Some m).
Proof.
  intros Hr. apply parse_Ok in Hr as [a ->].
  destruct (timestamp_keeps U body
              (fallback U body (classify U body (set_amount init_result a))))
    as (-> & -> & _).
  rewrite fallback_keeps_merchant. unfold classify.
  destruct (contains kw_giro _ || contains kw_cajero _).
  - rewrite fallback_keeps_known by reflexivity. cbn.
    intros H. injection H as <-. now left.
  - destruct (contains kw_cargo_a_cuenta _).
    + destruct (with_merchant_fields U body
                  (set_card_type (set_amount init_result a) (Some DEBITO)))
        as (Hct & Hm).
      rewrite fallback_keeps_known by (rewrite Hct; reflexivity).
      rewrite Hct, Hm. destruct (found_merchant U body); [|discriminate].
      intros H. right. split; [now left|exact H].
    + destruct (contains kw_tarjeta_de_credito _); [|discriminate].
      destruct (with_merchant_fields U body
                  (set_card_type (set_amount init_result a) (Some CREDITO)))
        as (Hct & Hm).
      rewrite fallback_keeps_known by (rewrite Hct; reflexivity).
      rewrite Hct, Hm. destruct (found_merchant U body); [|discriminate].
      intros H. right. split; [now right|exact H].
Qed.
End MerchantFacts.

(** X6. A record has a merchant only together with one of the three kinds
    the main branches set: "Giro" with the fixed text, or "Débito" or
    "Crédito" with the text found by the merchant pattern.  The fallback
    kind never comes with a merchant. *)
Theorem merchant_only_with_known_kind
    (U : unicode_db) (body : str) (r : TransactionParsed) (m : str) :
  parse_banco_chile_email U body = Ok r ->
  merchant r = Some m ->
  (card_type r = Some GIRO /\ m = CAJERO_AUTOMATICO) \/
  ((card_type r = Some DEBITO \/ card_type r = Some CREDITO) /\
   found_merchant U body = Some m).
Proof. apply parse_merchant. Qed.

(** X7. The merchant of a debit or a credit is a stretch of one line of the
    body that follows "en ", with the blanks at both ends removed: it has
    no carriage return or line feed and no blank first or last
    character. *)
Theorem merchant_is_clean
    (U : unicode_db) (body : str) (r : TransactionParsed) (m : str) :
  parse_banco_chile_email U body = Ok r ->
  merchant r = Some m ->
  card_type r <> Some GIRO ->
  Forall (fun c => c <> CR /\ c <> LF) m /\
  trimmed (isspace U) m /\
  exists raw, m = str_strip U raw /\ raw <> [] /\
              is_substring (kw_en ++ raw) body.
Proof.
  intros Hr Hm Hk.
  destruct (parse_merchant U body Hr Hm) as [[Hg _]|[_ Hf]]; [now elim Hk|].
  destruct (found_merchant_origin U body Hf) as (raw & -> & Hraw & Hnl & Hsub).
  destruct (str_strip_spec U raw) as ((b & a & Hs) & Ht).
  repeat split; try apply Ht.
  - rewrite Hs in Hnl. apply Forall_stretch in Hnl.
    revert Hnl. apply Forall_impl. intros c Hc. unfold not_newline in Hc.
    apply negb_true_iff, orb_false_iff in Hc as [H1 H2].
    split; intros ->; discriminate.
  - exists raw. now repeat split.
Qed.

(* ================================================================== *)
(** ** The timestamp and the row *)

Lemma passes_length (ps : list (codepoint -> bool)) (w : str) :
  passes ps w -> List.length w = List.length ps.
Proof. intros H. symmetry. exact (Forall2_length H). Qed.

Lemma passes_excludes (c : codepoint) (ps : list (codepoint -> bool)) (w : str) :
  Forall (fun p => p c = false) ps -> passes ps w ->
  Forall (fun x => (x =? c)%N = false) w.
Proof.
  intros Hps Hw. induction Hw as [|p x ps w Hx _ IH]; [constructor|].
  inversion Hps as [|? ? Hp Hps']; subst. constructor; [|now apply IH].
  destruct (N.eqb_spec x c) as [->|]; [congruence|reflexivity].
Qed.

Lemma split_on_none (sep : codepoint) (w : str) :
  Forall (fun x => (x =? sep)%N = false) w -> split_on sep w = [w].
Proof.
  induction 1 as [|x w Hx _ IH]; simpl; [reflexivity|]. now rewrite Hx, IH.
Qed.

Lemma split_on_once (sep : codepoint) (w1 w2 : str) :
  Forall (fun x => (x =? sep)%N = false) w1 ->
  Forall (fun x => (x =? sep)%N = false) w2 ->
  split_on sep (w1 ++ sep :: w2) = [w1; w2].
Proof.
  intros H1 H2. induction H1 as [|x w Hx _ IH]; simpl.
  - now rewrite N.eqb_refl, split_on_none.
  - now rewrite Hx, IH.
Qed.

Lemma firstn_exact (A : Type) (n : nat) (w1 w2 : list A) :
  List.length w1 = n -> firstn n (w1 ++ w2) = w1.
Proof.
  intros <-. induction w1 as [|x w1 IH]; simpl; [now destruct w2|now f_equal].
Qed.

Lemma skipn_exact (A : Type) (n : nat) (w1 w2 : list A) (x : A) :
  List.length w1 = n -> skipn (S n) (w1 ++ x :: w2) = w2.
Proof. intros <-. induction w1 as [|y w1 IH]; simpl; [reflexivity|exact IH]. Qed.

Section TimestampFacts.
Variable U : unicode_db.
Variable body : str.

Lemma parse_datetime (r : TransactionParsed) :
  parse_banco_chile_email U body = Ok r ->
  datetime r
  = option_map (fun m => group m 1 ++ [SPACE] ++ group m 2)
      (search (re_datetime U) body).
Proof.
  intros Hr. apply parse_Ok in Hr as [a ->]. unfold timestamp.
  destruct (search (re_datetime U) body); [reflexivity|].
  unfold fallback, classify, with_merchant.
  repeat match goal with
         | |- context [if ?c then _ else _] => destruct c
         | |- context [match search ?r ?b with _ => _ end] =>
             destruct (search r b)
         | |- context [match search_ignorecase ?u ?r ?b with _ => _ end] =>
             destruct (search_ignorecase u r b)
         end; reflexivity.
Qed.

Lemma datetime_origin (r : TransactionParsed) (dt : str) :
  parse_banco_chile_email U body = Ok r ->
  datetime r = Some dt ->
  exists day time,
    dt = day ++ SPACE :: time /\
    passes (date_tests U) day /\ passes (time_tests U) time /\
    is_substring (kw_el_space ++ dt) body.
Proof.
  intros Hr. rewrite (@parse_datetime r Hr).
  destruct (search (re_datetime U) body) as [m|] eqn:E; [|discriminate].
  intros H. injection H as <-.
  apply search_with_Some in E as (before & s0 & -> & E).
  apply match_at_datetime in E as (day & time & rest & -> & Hd & Ht & Hg).
  exists day, time. unfold group. rewrite Hg. cbn [nth Nat.sub app].
  repeat split; try assumption.
  exists before, rest. cbn [app]. now rewrite <- !app_assoc.
Qed.
End TimestampFacts.

(** X8. A timestamp, when the record has one, is copied from the body, where
    it follows "el ": two digits, "/", two digits, "/", four digits, a
    space, two digits, ":", two digits.  Nothing else is asked of the
    digits. *)
Theorem datetime_is_copied
    (U : unicode_db) (body : str) (r : TransactionParsed) (dt : str) :
  parse_banco_chile_email U body = Ok r ->
  datetime r = Some dt ->
  exists day time,
    dt = day ++ SPACE :: time /\
    passes (date_tests U) day /\ passes (time_tests U) time /\
    is_substring (kw_el_space ++ dt) body.
Proof. apply datetime_origin. Qed.

(** X9. The row sent to the sheet, for a record of the extractor: the date
    and the time are the two halves of the timestamp (both empty without
    one), then the merchant and the kind (empty when absent), then the
    amount. *)
Theorem row_of_extracted_record
    (U : unicode_db) (body : str) (r : TransactionParsed) :
  isdecimal U SPACE = false ->
  parse_banco_chile_email U body = Ok r ->
  row_data r
  = [ CellStr (firstn 10 (or_empty (datetime r)));
      CellStr (skipn 11 (or_empty (datetime r)));
      CellStr (or_empty (merchant r));
      CellStr (or_empty (card_type r));
      CellFloat (amount r) ].
Proof.
  intros Hsp Hr. unfold row_data, date_and_time.
  destruct (datetime r) as [dt|] eqn:Hdt; [|reflexivity].
  destruct (@datetime_origin U body r dt Hr Hdt) as (day & time & -> & Hd & Ht & _).
  pose proof (@passes_length _ _ Hd) as Ld. pose proof (@passes_length _ _ Ht) as Lt.
  cbn [date_tests time_tests List.length] in Ld, Lt.
  assert (Hday : Forall (fun x => (x =? SPACE)%N = false) day).
  { apply (@passes_excludes SPACE (date_tests U)); [|exact Hd].
    repeat constructor; first [exact Hsp|reflexivity]. }
  assert (Htime : Forall (fun x => (x =? SPACE)%N = false) time).
  { apply (@passes_excludes SPACE (time_tests U)); [|exact Ht].
    repeat constructor; first [exact Hsp|reflexivity]. }
  cbn [or_empty]. rewrite (@split_on_once SPACE day time Hday Htime).
  cbn [or_empty].
  rewrite (firstn_exact _ _ Ld), (skipn_exact _ _ _ Ld).
  destruct day; [discriminate Ld|reflexivity].
Qed.

(* ================================================================== *)
(** ** When the amount is zero *)

Section RoundingFacts.
Local Open Scope Z_scope.

Lemma digits2_pos_bound (q : positive) :
  2 ^ (Zpos (digits2_pos q) - 1) <= Zpos q.
Proof.
  induction q as [q IH|q IH|]; simpl digits2_pos.
  - rewrite Pos2Z.inj_succ.
    replace (Z.succ (Zpos (digits2_pos q)) - 1)
      with (Z.succ (Zpos (digits2_pos q) - 1)) by lia.
    rewrite Z.pow_succ_r by lia. lia.
  - rewrite Pos2Z.inj_succ.
    replace (Z.succ (Zpos (digits2_pos q)) - 1)
      with (Z.succ (Zpos (digits2_pos q) - 1)) by lia.
    rewrite Z.pow_succ_r by lia. lia.
  - simpl. lia.
Qed.

Lemma shr_1_halves (mrs : shr_record) (j : Z) :
  0 <= j -> 2 ^ (j + 1) <= shr_m mrs -> 2 ^ j <= shr_m (shr_1 mrs).
Proof.
  intros Hj. rewrite Z.pow_add_r, Z.pow_1_r by lia.
  assert (0 < 2 ^ j) by (apply Z.pow_pos_nonneg; lia).
  destruct mrs as [m r s]. simpl.
  destruct m as [|[q|q|]|q]; simpl; lia.
Qed.

Lemma iter_pos_counts (A : Type) (P : Z -> A -> Prop) (f : A -> A) :
  (forall j x, 0 <= j -> P (j + 1) x -> P j (f x)) ->
  forall k j x, 0 <= j -> P (j + Zpos k) x -> P j (iter_pos f k x).
Proof.
  intros Hf. induction k as [k IH|k IH|]; intros j x Hj H; simpl.
  - apply IH; [lia|]. apply IH; [lia|]. apply Hf; [lia|].
    replace (j + Zpos k + Zpos k + 1) with (j + Zpos k~1) by lia. exact H.
  - apply IH; [lia|]. apply IH; [lia|].
    replace (j + Zpos k + Zpos k) with (j + Zpos k~0) by lia. exact H.
  - apply Hf; assumption.
Qed.

Lemma shr_record_of_loc_m (m : Z) (l : location) :
  shr_m (shr_record_of_loc m l) = m.
Proof. destruct l as [|[| |]]; reflexivity. Qed.

(** A positive mantissa stays positive when it is shifted to its
    binary64 exponent, as long as the exponent is not tiny. *)
Lemma shr_fexp_pos (m e : Z) (l : location) :
  0 < m -> -1073 <= e ->
  0 < shr_m (fst (shr_fexp 53 1024 m e l)) /\
  -1073 <= snd (shr_fexp 53 1024 m e l).
Proof.
  intros Hm He. unfold shr_fexp, shr.
  destruct m as [|q|q]; try lia.
  cbn [Zdigits2].
  pose proof (digits2_pos_bound q) as Hq.
  set (D := Zpos (digits2_pos q)) in *.
  assert (HD : 1 <= D) by (unfold D; lia).
  destruct (fexp 53 1024 (D + e) - e) as [|k|k] eqn:En;
    cbn [fst snd]; rewrite ?shr_record_of_loc_m; try (split; lia).
  assert (Hk : Zpos k <= D - 1) by (unfold fexp, emin in En; lia).
  split; [|lia].
  assert (H1 : 2 ^ 0 <= shr_m (iter_pos shr_1 k (shr_record_of_loc (Zpos q) l))).
  { apply (@iter_pos_counts _ (fun j x => 2 ^ j <= shr_m x));
      [intros; now apply shr_1_halves|lia|].
    rewrite shr_record_of_loc_m. cbn [Z.add].
    apply Z.le_trans with (2 ^ (D - 1)); [|exact Hq].
    apply Z.pow_le_mono_r; lia. }
  simpl in H1. lia.
Qed.

Lemma round_nearest_even_pos (m : Z) (l : location) :
  0 < m -> 0 < round_nearest_even m l.
Proof.
  intros H. destruct l as [|[| |]]; simpl; try lia. destruct (Z.even m); lia.
Qed.

Lemma binary_round_aux_nonzero (m e : Z) (l : location) :
  0 < m -> -1073 <= e ->
  float_is_zero (binary_round_aux 53 1024 false m e l) = false.
Proof.
  intros Hm He. unfold binary_round_aux.
  destruct (shr_fexp_pos l Hm He) as [H1 H1e].
  destruct (shr_fexp 53 1024 m e l) as [mrs' e']. cbn [fst snd] in H1, H1e.
  destruct (shr_fexp_pos loc_Exact
              (round_nearest_even_pos (loc_of_shr_record mrs') H1) H1e)
    as [H2 _].
  destruct (shr_fexp 53 1024 _ e' loc_Exact) as [mrs'' e''].
  cbn [fst] in H2. destruct (shr_m mrs'') as [|p|p]; try lia.
  now destruct (e'' <=? 1024 - 53).
Qed.

(** The float of a natural number is 0.0 for the number 0 only. *)
Lemma binary64_of_N_zero (n : N) :
  float_is_zero (binary64_of_N n) = true <-> n = 0%N.
Proof.
  split; [|now intros ->].
  destruct n as [|p]; [reflexivity|]. intros H. exfalso.
  unfold binary64_of_N, binary_normalize in H. cbn [Z.of_N] in H.
  unfold binary_round in H.
  destruct (shl_align p 0 (fexp 53 1024 (Zpos (digits2_pos p) + 0)))
    as [mz ez] eqn:Es.
  rewrite binary_round_aux_nonzero in H; [discriminate|lia|].
  unfold shl_align in Es.
  destruct (fexp 53 1024 (Zpos (digits2_pos p) + 0) - 0) eqn:En;
    injection Es as <- <-; unfold fexp, emin in *; lia.
Qed.
End RoundingFacts.

Section ZeroAmount.
Variable U : unicode_db.
Variable body : str.

Lemma amount_stage_value :
  amount_stage U body
  = Ok match token_value U body with
       | Some n => binary64_of_N n
       | None => float_zero
       end.
Proof.
  unfold amount_stage, token_value.
  destruct (search (re_amount U) body) as [m|]; [|reflexivity].
  destruct (digits_value U (amount_str_of (group0 m)) 0) as [n|] eqn:E.
  - now apply amount_of_token_digits.
  - unfold amount_of_token, py_float. rewrite E.
    now destruct (amount_str_of (group0 m)).
Qed.

Lemma parse_amount_value (r : TransactionParsed) :
  parse_banco_chile_email U body = Ok r ->
  amount r = match token_value U body with
             | Some n => binary64_of_N n
             | None => float_zero
             end.
Proof.
  intros Hr. destruct (parse_amount U body amount_stage_value) as (r' & Hr' & <-).
  congruence.
Qed.
End ZeroAmount.

Lemma parse_zero_iff (U : unicode_db) (body : str) (r : TransactionParsed) :
  parse_banco_chile_email U body = Ok r ->
  (float_is_zero (amount r) = true <->
   token_value U body = None \/ token_value U body = Some 0%N).
Proof.
  intros Hr. rewrite (parse_amount_value U body Hr).
  destruct (token_value U body) as [n|].
  - rewrite binary64_of_N_zero. split.
    + intros ->. now right.
    + intros [H|H]; [discriminate|now injection H].
  - split; [now left|reflexivity].
Qed.

(** X2. The amount of a record is the float of the number read from the
    first currency token, and it is zero exactly when there is no token
    or that number is zero: "$0" and "$0.000" count as "nothing found",
    while any positive number, however large, does not. *)
Theorem zero_amount_iff
    (U : unicode_db) (body : str) (r : TransactionParsed) :
  parse_banco_chile_email U body = Ok r ->
  amount r = match token_value U body with
             | Some n => binary64_of_N n
             | None => float_zero
             end /\
  (float_is_zero (amount r) = true <->
   token_value U body = None \/ token_value U body = Some 0%N).
Proof.
  intros Hr. split; [exact (parse_amount_value U body Hr)|].
  exact (parse_zero_iff U body Hr).
Qed.

(* ================================================================== *)
(** ** More properties of the orchestrator *)

Section SaveFacts.
Variable env : environ.
Variable client : sheets_client.


(** Whatever the client does, the save step ends without raising, after
    no request, a failed build, or a build and one append. *)
Lemma save_cases (t : TransactionParsed) log :
  exists outcome events,
    save_to_sheets env client t log = (Ok outcome, log ++ events) /\
    (events = [] \/ events = [EvBuild] \/
     events = [EvBuild; append_event env t]).
Proof.
  unfold save_to_sheets.
  destruct (truthy (SPREADSHEET_ID env)); cbn [negb].
  - unfold try_except, write_to_sheet, get_sheets_service, io_bind, io_call,
      io_ret. unfold append_event, append_range. cbv zeta.
    destruct (build client) as [[]|e].
    + destruct (values_append client _ _ _) as [ans|e];
        eexists; eexists;
        (split; [now rewrite <- app_assoc|now right; right]).
    + eexists. exists [EvBuild]. split; [reflexivity|now right; left].
  - eexists. exists []. split; [now rewrite app_nil_r|now left].
Qed.
End SaveFacts.


(* ================================================================== *)
(** ** The log lines of [parse_email] *)

Lemma parse_email_stdout_zero U env client out (email : EmailRequest)
    (r : TransactionParsed) log :
  parse_banco_chile_email U (body email) = Ok r ->
  float_is_zero (amount r) = true ->
  parse_email_stdout U env client out email log
  = (Returned {| status := st_error; transaction := None;
                 message := Some msg_no_transaction |}, log).
Proof.
  intros Hr Hz. unfold parse_email_stdout, run_or_http_500, run_bind, run_lift.
  cbn. rewrite Hr, Hz. reflexivity.
Qed.

Lemma parse_email_stdout_nonzero U env client out (email : EmailRequest)
    (r : TransactionParsed) log :
  parse_banco_chile_email U (body email) = Ok r ->
  float_is_zero (amount r) = false ->
  parse_email_stdout U env client out email log
  = match save_to_sheets_stdout env client out r
            {| vars := nothing_saved; calls := log |} with
    | (Ok _, st) =>
        (Returned {| status := st_success; transaction := Some r;
                     message := Some (response_message (vars st)) |}, calls st)
    | (Raise e, st) => (HTTPException 500 (exn_str e), calls st)
    end.
Proof.
  intros Hr Hz.
  unfold parse_email_stdout, run_or_http_500, run_bind, run_lift, run_assign,
    run_vars, run_ret.
  cbn. rewrite Hr, Hz. cbn.
  destruct (save_to_sheets_stdout env client out r _) as [[[]|e] st]; reflexivity.
Qed.

(** With a console that writes every line, the orchestrator is
    [parse_email] as stated without its log lines. *)
Lemma parse_email_stdout_writes_all U env client out email log :
  writes_all out ->
  parse_email_stdout U env client out email log
  = parse_email U env client email log.
Proof.
  intros [Hp He].
  destruct (parse_returns U (body email)) as [r Hr].
  destruct (float_is_zero (amount r)) eqn:Hz.
  - now rewrite (@parse_email_stdout_zero U env client out email r log Hr Hz),
      (parse_email_zero U env client email log Hr Hz).
  - rewrite (@parse_email_stdout_nonzero U env client out email r log Hr Hz),
      (parse_email_nonzero U env client email log Hr Hz).
    unfold save_to_sheets_stdout, save_to_sheets.
    destruct (truthy (SPREADSHEET_ID env)); cbn [negb].
    + unfold run_try, run_bind, run_lift, run_io, run_assign, try_except,
        write_to_sheet, get_sheets_service, io_bind, io_call, io_ret.
      cbn. rewrite !Hp. cbn.
      destruct (build client) as [[]|e]; cbn.
      * destruct (values_append client _ _ _) as [ans|e]; cbn;
          rewrite ?Hp, ?He; reflexivity.
      * rewrite Hp, He. reflexivity.
    + reflexivity.
Qed.

(** What the failure path does, line by line. *)
Lemma save_stdout_raises env client out (t : TransactionParsed) (e : exn) log :
  truthy (SPREADSHEET_ID env) = true ->
  print out (LineAttempt (or_empty (SPREADSHEET_ID env))) = Ok tt ->
  print out (LineData (row_data t)) = Ok tt ->
  append_raises env client t e ->
  exists events,
    (events = [EvBuild] \/ events = [EvBuild; append_event env t]) /\
    save_to_sheets_stdout env client out t
      {| vars := nothing_saved; calls := log |}
    = (match print out (LineError e) with
       | Ok _ => print_exc out e
       | Raise e1 => Raise e1
       end,
       {| vars := set_sheets_error (Some (exn_str e)) nothing_saved;
          calls := log ++ events |}).
Proof.
  intros Hid H1 H2 Hc. unfold save_to_sheets_stdout. rewrite Hid. cbn [negb].
  unfold run_try, run_bind, run_lift, run_io, run_assign,
    write_to_sheet, get_sheets_service, io_bind, io_call, io_ret.
  cbn. rewrite H1, H2. cbn.
  destruct Hc as [Hb|[Hb Ha]]; rewrite Hb; cbn.
  - exists [EvBuild]. split; [now left|].
    destruct (print out (LineError e)) as [[]|e1]; reflexivity.
  - fold (append_range env). rewrite Ha. cbn.
    exists [EvBuild; append_event env t]. split; [now right|].
    rewrite <- app_assoc. cbn.
    destruct (print out (LineError e)) as [[]|e1]; reflexivity.
Qed.

(* ================================================================== *)
(** ** A failed append, with the log lines *)

(** C1, with the inputs where it fails.  The body gives a non-zero
    amount, the destination is configured, the two lines before the
    request are written and the append attempt for the record raises [e].
    Then [parse_email] answers "success" with the transaction only if the
    two log calls of its handler go through: what [print] or
    [traceback.print_exc()] raise there leaves as [HTTPException(500)].
    And the message carries [str(e)] only if [str(e)] is not empty: for an
    exception without text it is the message of a destination that is not
    configured. *)
Theorem persistence_failure_outcome
    (U : unicode_db) (env : environ) (client : sheets_client) (out : console)
    (email : EmailRequest) (r : TransactionParsed) (e : exn) log :
  parse_banco_chile_email U (body email) = Ok r ->
  float_is_zero (amount r) = false ->
  truthy (SPREADSHEET_ID env) = true ->
  print out (LineAttempt (or_empty (SPREADSHEET_ID env))) = Ok tt ->
  print out (LineData (row_data r)) = Ok tt ->
  append_raises env client r e ->
  exists events,
    (events = [EvBuild] \/ events = [EvBuild; append_event env r]) /\
    parse_email_stdout U env client out email log
    = (match print out (LineError e) with
       | Raise e1 => HTTPException 500 (exn_str e1)
       | Ok _ =>
           match print_exc out e with
           | Raise e2 => HTTPException 500 (exn_str e2)
           | Ok _ =>
               Returned
                 {| status := st_success;
                    transaction := Some r;
                    message := Some match exn_str e with
                                    | [] => msg_not_configured
                                    | reason => msg_not_saved ++ reason
                                    end |}
           end
       end, log ++ events).
Proof.
  intros Hr Hz Hid H1 H2 Hc.
  destruct (@save_stdout_raises env client out r e log Hid H1 H2 Hc)
    as (events & Hev & Hs).
  exists events. split; [exact Hev|].
  rewrite (@parse_email_stdout_nonzero U env client out email r log Hr Hz), Hs.
  destruct (print out (LineError e)) as [[]|e1]; [|reflexivity].
  destruct (print_exc out e) as [[]|e2]; [|reflexivity].
  cbn [vars calls]. unfold set_sheets_error, nothing_saved.
  cbn [sheets_saved sheets_details]. rewrite response_message_error.
  now destruct (exn_str e).
Qed.

Lemma persistence_failure_outcome_witness :
  parse_banco_chile_email ucd_latin (body email_purchase) = Ok record_purchase /\
  float_is_zero (amount record_purchase) = false /\
  truthy (SPREADSHEET_ID env_configured) = true /\
  print utf8_console (LineAttempt (or_empty (SPREADSHEET_ID env_configured)))
  = Ok tt /\
  print utf8_console (LineData (row_data record_purchase)) = Ok tt /\
  append_raises env_configured silent_client record_purchase nameless_failure /\
  exists events,
    (events = [EvBuild] \/
     events = [EvBuild; append_event env_configured record_purchase]) /\
    parse_email_stdout ucd_latin env_configured silent_client utf8_console
      email_purchase []
    = (Returned {| status := st_success;
                   transaction := Some record_purchase;
                   message := Some msg_not_configured |}, [] ++ events).
Proof.
  assert (Hc : append_raises env_configured silent_client record_purchase
                 nameless_failure)
    by (right; split; reflexivity).
  split; [exact parse_body_purchase|]. split; [exact record_purchase_nonzero|].
  split; [reflexivity|]. split; [reflexivity|]. split; [reflexivity|].
  split; [exact Hc|].
  exact (@persistence_failure_outcome ucd_latin env_configured silent_client
           utf8_console email_purchase record_purchase nameless_failure []
           parse_body_purchase record_purchase_nonzero eq_refl eq_refl eq_refl
           Hc).
Defined.

(** The quota error of the Sheets service, with a standard output that
    is gone when the handler logs it: the request ends in
    [HTTPException(500)] although the row was tried once. *)
Example persistence_failure_closed_stdout :
  parse_email_stdout ucd_latin env_configured failing_client closing_console
    email_purchase []
  = (HTTPException 500 (exn_str broken_pipe),
     [EvBuild; append_event env_configured record_purchase]).
Proof. vm_compute. reflexivity. Qed.

(** The same error with a standard output that writes: the reason is in
    the message. *)
Example persistence_failure_reported :
  parse_email_stdout ucd_latin env_configured failing_client utf8_console
    email_purchase []
  = (Returned {| status := st_success;
                 transaction := Some record_purchase;
                 message := Some (msg_not_saved ++ exn_str quota_exceeded) |},
     [EvBuild; append_event env_configured record_purchase]).
Proof. vm_compute. reflexivity. Qed.

(* ================================================================== *)
(** ** Every run of [parse_email] *)

Section SaveStdoutFacts.
Variable env : environ.
Variable client : sheets_client.
Variable out : console.


End SaveStdoutFacts.


(* ================================================================== *)
(** ** A body without a currency token *)

Section AmountApart.
Variable U : unicode_db.
Variable body : str.

Lemma classify_same (a b : TransactionParsed) :
  same_but_amount a b -> same_but_amount (classify U body a) (classify U body b).
Proof.
  intros (Hc & Hm & Hd). unfold classify, with_merchant.
  destruct (_ || _); [now repeat split|].
  destruct (contains kw_cargo_a_cuenta _);
    [destruct (search (re_merchant U) body); now repeat split|].
  destruct (contains kw_tarjeta_de_credito _);
    [destruct (search (re_merchant U) body); now repeat split|].
  now repeat split.
Qed.

Lemma fallback_same (a b : TransactionParsed) :
  same_but_amount a b -> same_but_amount (fallback U body a) (fallback U body b).
Proof.
  intros (Hc & Hm & Hd). unfold fallback. rewrite Hc.
  destruct (negb _); [|now repeat split].
  destruct (search_ignorecase U re_card_type body); now repeat split.
Qed.

Lemma timestamp_same (a b : TransactionParsed) :
  same_but_amount a b ->
  same_but_amount (timestamp U body a) (timestamp U body b).
Proof.
  intros (Hc & Hm & Hd). unfold timestamp.
  destruct (search (re_datetime U) body); now repeat split.
Qed.

(** The kind, the merchant and the timestamp of any body do not depend
    on its amount. *)
Lemma parse_other_fields (r : TransactionParsed) :
  parse_banco_chile_email U body = Ok r ->
  same_but_amount r (other_fields U body).
Proof.
  intros Hr. destruct (parse_Ok U body Hr) as [a ->]. unfold other_fields.
  apply timestamp_same, fallback_same, classify_same. now repeat split.
Qed.
End AmountApart.

(** C3, as amended.  A body with no substring matching the currency
    pattern gives the amount 0.0, and the record is what the later stages
    make of the body on their own.  The kind, the merchant and the
    timestamp are looked for as in any other body: those of every
    extracted record are the ones these stages find. *)
Theorem no_amount_pattern_gives_zero (U : unicode_db) (body : str) :
  ~ has_amount_pattern U body ->
  parse_banco_chile_email U body = Ok (other_fields U body) /\
  amount (other_fields U body) = float_zero /\
  forall body' r',
    parse_banco_chile_email U body' = Ok r' ->
    same_but_amount r' (other_fields U body').
Proof.
  intros H. apply search_amount_None in H.
  assert (Hp : parse_banco_chile_email U body = Ok (other_fields U body)).
  { rewrite parse_stages. unfold amount_stage. now rewrite H. }
  split; [exact Hp|]. split.
  - destruct (@parse_amount U body float_zero) as (r & Hr & Ha).
    { unfold amount_stage. now rewrite H. }
    congruence.
  - intros body' r'. apply parse_other_fields.
Qed.

Lemma no_amount_pattern_gives_zero_witness :
  ~ has_amount_pattern ucd_latin body_giro /\
  parse_banco_chile_email ucd_latin body_giro
  = Ok {| amount := float_zero; card_type := Some GIRO;
          merchant := Some CAJERO_AUTOMATICO;
          datetime := Some (u "05/02/2026 16:23") |} /\
  amount (other_fields ucd_latin body_giro) = float_zero /\
  forall body' r',
    parse_banco_chile_email ucd_latin body' = Ok r' ->
    same_but_amount r' (other_fields ucd_latin body').
Proof.
  assert (H : ~ has_amount_pattern ucd_latin body_giro)
    by (apply search_amount_None; vm_compute; reflexivity).
  split; [exact H|].
  destruct (@no_amount_pattern_gives_zero ucd_latin body_giro H)
    as (Hp & Ha & Hs).
  split; [|split; [exact Ha|exact Hs]].
  rewrite Hp. vm_compute. reflexivity.
Defined.

(* ================================================================== *)
(** ** Natural numbers that binary64 holds exactly *)

Section ExactFloats.
Local Open Scope Z_scope.

Lemma digits2_pos_upper (q : positive) : Zpos q < 2 ^ Zpos (digits2_pos q).
Proof.
  induction q as [q IH|q IH|]; simpl digits2_pos; [| |reflexivity];
    rewrite Pos2Z.inj_succ, Z.pow_succ_r by lia; lia.
Qed.

Lemma iter_xO_digits (k p : positive) :
  digits2_pos (Pos.iter xO p k) = (digits2_pos p + k)%positive.
Proof.
  induction k as [|k IH] using Pos.peano_ind.
  - simpl. lia.
  - rewrite Pos.iter_succ. simpl digits2_pos. rewrite IH. lia.
Qed.

Lemma iter_xO_value (k p : positive) :
  Zpos (Pos.iter xO p k) = Zpos p * 2 ^ Zpos k.
Proof.
  induction k as [|k IH] using Pos.peano_ind.
  - simpl. lia.
  - rewrite Pos.iter_succ, Pos2Z.inj_xO, IH, Pos2Z.inj_succ, Z.pow_succ_r by lia.
    lia.
Qed.

(** A mantissa of 53 bits is kept as it is. *)
Lemma binary_round_aux_exact (m : positive) (e : Z) :
  Zpos (digits2_pos m) = 53 -> -1074 <= e <= 971 ->
  binary_round_aux 53 1024 false (Zpos m) e loc_Exact = S754_finite false m e.
Proof.
  intros Hd He.
  assert (Hs : shr_fexp 53 1024 (Zpos m) e loc_Exact
               = (shr_record_of_loc (Zpos m) loc_Exact, e)).
  { unfold shr_fexp, fexp, emin. cbn [Zdigits2]. rewrite Hd.
    replace (Z.max (53 + e - 53) (3 - 1024 - 53) - e) with 0 by lia.
    reflexivity. }
  unfold binary_round_aux. rewrite Hs. cbn. rewrite Hs. cbn.
  destruct (e <=? 971) eqn:E; [reflexivity|]. apply Z.leb_gt in E. lia.
Qed.

(** Below 2^53 the float of a natural number is that number. *)
Lemma binary64_of_N_exact (n : N) :
  Z.of_N n < 2 ^ 53 -> float_is_int (binary64_of_N n) (Z.of_N n).
Proof.
  destruct n as [|p]; [reflexivity|]. intros Hn. cbn [Z.of_N] in *.
  unfold binary64_of_N, binary_normalize. cbn [Z.of_N]. unfold binary_round.
  pose proof (digits2_pos_bound p) as Hlo.
  assert (Hd : Zpos (digits2_pos p) <= 53).
  { destruct (Z_le_gt_dec (Zpos (digits2_pos p)) 53) as [H|H]; [exact H|].
    exfalso. assert (2 ^ 53 <= 2 ^ (Zpos (digits2_pos p) - 1))
      by (apply Z.pow_le_mono_r; lia). lia. }
  unfold shl_align, fexp, emin.
  replace (Z.max (Zpos (digits2_pos p) + 0 - 53) (3 - 1024 - 53) - 0)
    with (Zpos (digits2_pos p) - 53) by lia.
  destruct (Zpos (digits2_pos p) - 53) as [|k|k] eqn:Ek; [|lia|].
  - rewrite binary_round_aux_exact by lia. simpl. lia.
  - replace (Z.max (Zpos (digits2_pos p) + 0 - 53) (3 - 1024 - 53))
      with (Zneg k) by lia.
    rewrite binary_round_aux_exact.
    + unfold float_is_int. cbn [Z.leb Z.compare Z.opp]. apply iter_xO_value.
    + rewrite iter_xO_digits, Pos2Z.inj_add. lia.
    + lia.
Qed.
End ExactFloats.

(* ================================================================== *)
(** ** Digits read in base ten *)

Lemma digits_of_value (U : unicode_db) (s : str) (ds : list N) (acc : N) :
  digits_of U s ds ->
  digits_value U s acc = Some (fold_left (fun a d => (10 * a + d)%N) ds acc).
Proof.
  intros H. revert acc. induction H as [|c d s ds Hc _ IH]; intros acc.
  - reflexivity.
  - simpl. rewrite Hc. apply IH.
Qed.

Lemma digits_of_exists (U : unicode_db) (s : str) :
  Forall (fun c => isdecimal U c = true) s -> exists ds, digits_of U s ds.
Proof.
  induction 1 as [|c s Hc _ [ds IH]].
  - exists []. constructor.
  - unfold isdecimal in Hc. destruct (todecimal U c) as [d|] eqn:E;
      [|discriminate].
    exists (d :: ds). now constructor.
Qed.

Lemma filter_filter_eq {A} (f g : A -> bool) (l : list A) :
  (forall x, In x l -> f x = g x) -> filter f l = filter g l.
Proof.
  induction l as [|x l IH]; intros H; [reflexivity|]. simpl.
  rewrite (H x) by now left. rewrite IH; [reflexivity|].
  intros y Hy. apply H. now right.
Qed.

(* ================================================================== *)
(** ** The amount, as a number *)

(** C6 as first worded fails: in "pago por $1,50" the token read with a
    decimal comma is 1.5, and the amount extracted is 150. *)
Lemma comma_is_not_decimal : ~ amount_as_worded ucd_latin body_comma.
Proof.
  intros H.
  destruct (H (u "pago por ") (u "1,50") []) as (r & num & den & Hr & Hd & Hf).
  { assert (Hbody : body_comma = u "pago por " ++ DOLLAR :: u "1,50" ++ [])
      by (vm_compute; reflexivity).
    split; [exact Hbody|]. split; [discriminate|].
    split; [repeat constructor|]. split; [exact I|].
    rewrite Hbody. apply no_earlier_pattern. vm_compute. reflexivity. }
  assert (Hp : parse_banco_chile_email ucd_latin body_comma
               = Ok {| amount := binary64_of_N 150; card_type := None;
                       merchant := None; datetime := None |})
    by (vm_compute; reflexivity).
  rewrite Hp in Hr. injection Hr as <-.
  vm_compute in Hd. injection Hd as <- <-.
  vm_compute in Hf. discriminate Hf.
Qed.

(** C6, as amended.  When [$tok] is the first substring of the body
    matching the pattern, the amount is the number written by the digits
    of [tok], the dots and the commas both left out, as the nearest float;
    it is that number exactly below 2^53.  What follows the token, other
    amounts included, plays no part. *)
Theorem amount_is_first_token (U : unicode_db) (body before tok after : str) :
  first_amount_token U body before tok after ->
  exists r,
    parse_banco_chile_email U body = Ok r /\
    (exists ds, digits_of U (strip_separators tok) ds) /\
    forall ds,
      digits_of U (strip_separators tok) ds ->
      amount r = binary64_of_N (base_ten ds) /\
      ((Z.of_N (base_ten ds) < 2 ^ 53)%Z ->
       float_is_int (amount r) (Z.of_N (base_ten ds))).
Proof.
  intros H. pose proof (search_amount_first H) as Hs.
  destruct H as (_ & _ & Hcls & _).
  pose proof (@amount_str_digits U _ Hcls) as Hdig.
  destruct (@digits_of_exists U _ Hdig) as [ds0 Hds0].
  destruct (@parse_amount U body (binary64_of_N (base_ten ds0))) as (r & Hr & Ha).
  { unfold amount_stage. rewrite Hs. cbn [group0].
    apply amount_of_token_digits. rewrite amount_str_of_token.
    apply (@digits_of_value U _ _ 0%N Hds0). }
  exists r. split; [exact Hr|]. split; [now exists ds0|].
  intros ds Hds.
  assert (E : base_ten ds = base_ten ds0).
  { pose proof (@digits_of_value U _ _ 0%N Hds) as E1.
    pose proof (@digits_of_value U _ _ 0%N Hds0) as E2.
    unfold base_ten. congruence. }
  rewrite E, Ha. split; [reflexivity|]. apply binary64_of_N_exact.
Qed.

Lemma amount_is_first_token_witness :
  first_amount_token ucd_latin body_two_amounts
    (u "saldo $ ok: pago por ") (u "122.000") (u " y cuota de $5,50") /\
  exists r,
    parse_banco_chile_email ucd_latin body_two_amounts = Ok r /\
    digits_of ucd_latin (strip_separators (u "122.000")) [1; 2; 2; 0; 0; 0]%N /\
    base_ten [1; 2; 2; 0; 0; 0]%N = 122000%N /\
    amount r = binary64_of_N 122000 /\
    float_is_int (amount r) 122000.
Proof.
  assert (Hf : first_amount_token ucd_latin body_two_amounts
                 (u "saldo $ ok: pago por ") (u "122.000")
                 (u " y cuota de $5,50")).
  { assert (Hbody : body_two_amounts
                    = u "saldo $ ok: pago por "
                        ++ DOLLAR :: u "122.000" ++ u " y cuota de $5,50")
      by (vm_compute; reflexivity).
    split; [exact Hbody|]. split; [discriminate|].
    split; [repeat constructor|]. split; [vm_compute; reflexivity|].
    rewrite Hbody. apply no_earlier_pattern. vm_compute. reflexivity. }
  assert (Hd : digits_of ucd_latin (strip_separators (u "122.000"))
                 [1; 2; 2; 0; 0; 0]%N)
    by (repeat constructor).
  split; [exact Hf|].
  destruct (@amount_is_first_token ucd_latin _ _ _ _ Hf) as (r & Hr & _ & Hv).
  destruct (Hv _ Hd) as [Ha Hi].
  exists r. split; [exact Hr|]. split; [exact Hd|]. split; [reflexivity|].
  split; [exact Ha|]. apply Hi. vm_compute. reflexivity.
Defined.

(* ================================================================== *)
(** ** The API key, the read path and the utilities *)

Lemma str_eqb_eq (a b : str) : str_eqb a b = true <-> a = b.
Proof.
  revert b. induction a as [|x a IH]; intros [|y b]; simpl;
    try (split; [discriminate|discriminate]); [now split|].
  rewrite andb_true_iff, N.eqb_eq, IH. split.
  - now intros [-> ->].
  - intros H. now injection H.
Qed.

Lemma truthy_or_empty (o : option str) :
  truthy o = true -> o = Some (or_empty o).
Proof. destruct o as [[|c s]|]; now intros H. Qed.

(** X13. When [get_api_key] lets a request through: always, if no key is
    configured ([API_KEY] unset or empty), and otherwise only for a header
    equal to the configured key, which is then the value returned. *)
Theorem api_key_accepts_iff (expected_key api_key : option str) (k : str) :
  get_api_key expected_key api_key = Returned k <->
  (truthy expected_key = false /\ k = development_mode) \/
  (truthy expected_key = true /\ api_key = expected_key /\
   expected_key = Some k).
Proof.
  unfold get_api_key. destruct (truthy expected_key) eqn:He; cbn [negb].
  - destruct (truthy api_key) eqn:Ha; cbn [negb].
    + destruct (str_eqb (or_empty api_key) (or_empty expected_key)) eqn:E;
        cbn [negb].
      * apply str_eqb_eq in E. apply truthy_or_empty in He, Ha.
        split.
        -- intros H. injection H as <-. right.
           split; [reflexivity|]. rewrite Ha at 1. rewrite He at 1 2.
           now rewrite E.
        -- intros [[H _]|(_ & _ & H)]; [discriminate|].
           rewrite H in E. rewrite E. reflexivity.
      * split; [discriminate|]. intros [[H _]|(_ & H1 & H2)]; [discriminate|].
        subst. now rewrite (proj2 (str_eqb_eq _ _) eq_refl) in E.
    + split; [discriminate|]. intros [[H _]|(_ & H1 & H2)]; [discriminate|].
      subst. congruence.
  - split.
    + intros H. injection H as <-. now left.
    + intros [[_ ->]|(H & _)]; [reflexivity|discriminate].
Qed.

(** X14. With a key configured, a request whose header is not that key gets
    401 (no header, or an empty one) or 403 from the route, and the
    handler does not run: nothing is sent to the Sheets client. *)
Theorem wrong_key_reaches_nothing
    (U : unicode_db) (env : environ) (client : sheets_client)
    (expected_key api_key : option str) (email : EmailRequest) log :
  truthy expected_key = true ->
  api_key <> expected_key ->
  parse_email_route U env client expected_key api_key email log
  = (if truthy api_key
     then HTTPException 403 detail_invalid_key
     else HTTPException 401 detail_missing_key, log).
Proof.
  intros He Hne. unfold parse_email_route, get_api_key. rewrite He. cbn [negb].
  destruct (truthy api_key) eqn:Ha; cbn [negb]; [|reflexivity].
  destruct (str_eqb (or_empty api_key) (or_empty expected_key)) eqn:E;
    cbn [negb]; [|reflexivity].
  apply str_eqb_eq in E. apply truthy_or_empty in He, Ha.
  elim Hne. rewrite Ha, He. now rewrite E.
Qed.


(** X16. A response of [get_expenses] always has status "success" and a count
    equal to the number of rows it carries; an answer of the service
    without values gives the empty list. *)
Theorem get_expenses_count
    (env : environ) (client : sheets_client) (limit offset : Z)
    (resp : ExpensesResponse) log log' :
  get_expenses env client limit offset log = (Returned resp, log') ->
  exp_status resp = st_success /\
  count resp = List.length (data resp) /\
  (values_get client (expenses_spreadsheet env) (expenses_range limit offset)
   = Ok None -> data resp = []).
Proof.
  unfold expenses_spreadsheet, get_expenses, or_http_500, read_from_sheet,
    get_sheets_service, io_bind, io_call, io_ret.
  destruct (build client) as [[]|e]; [|discriminate].
  destruct (values_get client _ _) as [[rows|]|e]; [| |discriminate];
    intros H; injection H as <- _; repeat split; intros; congruence.
Qed.


Module BatchFacts.
Import Batch.
Section BatchFacts.
Variable V Resp : Type.

Lemma getitem_raises (d : dict V) (key : str) (e : exn) :
  getitem d key = Raise e -> e = KeyError key.
Proof.
  induction d as [|[k v] d IH]; simpl.
  - intros H. now injection H.
  - destruct (str_eqb k key); [discriminate|exact IH].
Qed.

Lemma entry_of_Ok (update : dict V) (e : data_entry V) :
  entry_of update = Ok e <-> entry_matches update e.
Proof.
  unfold entry_of, entry_matches, bind_result.
  destruct (getitem update key_range) as [r|x]; [|split; [discriminate|now intros [H _]]].
  destruct (getitem update key_values) as [v|x]; [|split; [discriminate|now intros [_ H]]].
  destruct e as [r' v']. cbn [entry_range entry_values]. split.
  - intros H. injection H as <- <-. now split.
  - intros [H1 H2]. injection H1 as <-. injection H2 as <-. reflexivity.
Qed.

Lemma entry_of_raises (update : dict V) (x : exn) :
  entry_of update = Raise x ->
  ~ has_both_keys update /\ (x = KeyError key_range \/ x = KeyError key_values).
Proof.
  unfold entry_of, has_both_keys, entry_matches, bind_result.
  destruct (getitem update key_range) as [r|x1] eqn:E1.
  - destruct (getitem update key_values) as [v|x2] eqn:E2; [discriminate|].
    intros H. injection H as <-. split.
    + intros (e & _ & H). discriminate.
    + right. exact (getitem_raises _ _ E2).
  - intros H. injection H as <-. split.
    + intros (e & H & _). discriminate.
    + left. exact (getitem_raises _ _ E1).
Qed.

Lemma entries_of_Ok (updates : list (dict V)) (data : list (data_entry V)) :
  entries_of updates = Ok data <-> Forall2 entry_matches updates data.
Proof.
  revert data. induction updates as [|u updates IH]; intros data; simpl.
  - split.
    + intros H. injection H as <-. constructor.
    + intros H. inversion H. reflexivity.
  - unfold bind_result at 1.
    destruct (entry_of u) as [e|x] eqn:Eu.
    + unfold bind_result. destruct (entries_of updates) as [es|x] eqn:Es.
      * split.
        -- intros H. injection H as <-. constructor.
           ++ now apply entry_of_Ok.
           ++ now apply IH.
        -- intros H. inversion H as [|? e' ? es' He Hes]; subst.
           apply entry_of_Ok in He. apply IH in Hes. congruence.
      * split; [discriminate|].
        intros H. inversion H as [|? e' ? es' He Hes]; subst.
        apply IH in Hes. discriminate.
    + split; [discriminate|].
      intros H. inversion H as [|? e' ? es' He Hes]; subst.
      apply entry_of_Ok in He. congruence.
Qed.

Lemma entries_have_keys (updates : list (dict V)) (data : list (data_entry V)) :
  Forall2 entry_matches updates data -> Forall has_both_keys updates.
Proof.
  induction 1 as [|u e us es He _ IH]; constructor; [now exists e|exact IH].
Qed.

Lemma entries_of_raises (updates : list (dict V)) (x : exn) :
  entries_of updates = Raise x ->
  ~ Forall has_both_keys updates /\
  (x = KeyError key_range \/ x = KeyError key_values).
Proof.
  induction updates as [|u updates IH]; simpl; [discriminate|].
  unfold bind_result at 1. destruct (entry_of u) as [e|y] eqn:Eu.
  - unfold bind_result. destruct (entries_of updates) as [es|y] eqn:Es;
      [discriminate|].
    intros H. injection H as <-. destruct (IH eq_refl) as [Hn Hk].
    split; [|exact Hk]. intros HF. inversion HF. now apply Hn.
  - intros H. injection H as <-. destruct (entry_of_raises _ Eu) as [Hn Hk].
    split; [|exact Hk]. intros HF. inversion HF. now apply Hn.
Qed.

Variable svc : service V Resp.
Variable spreadsheet_id : str.

(** X18. If some update lacks the key "range" or the key "values",
    [batch_update_sheet] raises [KeyError] for such a key once the
    service is built, and no update request is sent: not even for the
    updates that are complete. *)
Theorem batch_update_incomplete (updates : list (dict V)) log :
  service_build svc = Ok tt ->
  ~ Forall has_both_keys updates ->
  exists key,
    (key = key_range \/ key = key_values) /\
    batch_update_sheet svc spreadsheet_id updates log
    = (Raise (KeyError key), log ++ [Build V]).
Proof.
  intros Hb Hn. unfold batch_update_sheet, bind, call, lift. rewrite Hb.
  destruct (entries_of updates) as [data|x] eqn:E.
  - elim Hn. apply entries_of_Ok in E. exact (entries_have_keys E).
  - destruct (entries_of_raises _ E) as [_ [->| ->]];
      [exists key_range|exists key_values]; (split; [auto|reflexivity]).
Qed.

(** X19. If every update has both keys, exactly one request is sent after the
    build: its data has one entry per update, in the same order, holding
    the update's range and values and nothing else, to be read as typed by
    a user; what the service answers or raises is the result. *)
Theorem batch_update_complete (updates : list (dict V)) log :
  service_build svc = Ok tt ->
  Forall has_both_keys updates ->
  exists data,
    Forall2 entry_matches updates data /\
    let request := {| valueInputOption := USER_ENTERED; body_data := data |} in
    batch_update_sheet svc spreadsheet_id updates log
    = (values_batchUpdate svc spreadsheet_id request,
       log ++ [Build V; BatchUpdate spreadsheet_id request]).
Proof.
  intros Hb HF. unfold batch_update_sheet, bind, call, lift. rewrite Hb.
  destruct (entries_of updates) as [data|x] eqn:E.
  - exists data. split; [now apply entries_of_Ok|].
    cbv zeta. rewrite <- app_assoc. cbn [app].
    now destruct (values_batchUpdate svc spreadsheet_id _).
  - destruct (entries_of_raises _ E) as [Hn _]. now elim Hn.
Qed.
End BatchFacts.
End BatchFacts.

(** X12. [parse_email] answers "error" exactly for the bodies whose first
    currency token is missing or reads as zero. *)
Theorem error_status_iff
    (U : unicode_db) (env : environ) (client : sheets_client)
    (email : EmailRequest) (resp : ParseResponse) log log' :
  parse_email U env client email log = (Returned resp, log') ->
  (status resp = st_error <->
   token_value U (body email) = None \/
   token_value U (body email) = Some 0%N).
Proof.
  destruct (parse_returns U (body email)) as [r Hr].
  rewrite <- (parse_zero_iff U (body email) Hr).
  destruct (float_is_zero (amount r)) eqn:Hz.
  - rewrite (parse_email_zero U env client email log Hr Hz).
    intros H. injection H as <- _. now split.
  - rewrite (parse_email_nonzero U env client email log Hr Hz).
    destruct (save_cases env client r log) as (o & events & -> & _).
    intros H. injection H as <- _. split; discriminate.
Qed.

(* ================================================================== *)
(** ** The properties above at sample inputs *)

Ltac present := apply contains_true_iff; vm_compute; reflexivity.
Ltac absent :=
  let H := fresh in
  intros H; apply contains_true_iff in H; vm_compute in H; discriminate.

Lemma amount_nonneg_witness :
  parse_banco_chile_email ucd_latin body_purchase = Ok record_purchase /\
  float_nonneg (amount record_purchase) = true.
Proof.
  split; [exact parse_body_purchase|].
  exact (@amount_nonneg ucd_latin body_purchase record_purchase
           parse_body_purchase).
Defined.

Lemma zero_amount_iff_witness :
  parse_banco_chile_email ucd_latin body_purchase = Ok record_purchase /\
  amount record_purchase
  = match token_value ucd_latin body_purchase with
    | Some n => binary64_of_N n
    | None => float_zero
    end /\
  (float_is_zero (amount record_purchase) = true <->
   token_value ucd_latin body_purchase = None \/
   token_value ucd_latin body_purchase = Some 0%N).
Proof.
  split; [exact parse_body_purchase|].
  exact (@zero_amount_iff ucd_latin body_purchase record_purchase
           parse_body_purchase).
Defined.

Lemma debit_before_credit_witness :
  ~ is_substring kw_giro (str_lower ucd_latin body_debit) /\
  ~ is_substring kw_cajero (str_lower ucd_latin body_debit) /\
  is_substring kw_cargo_a_cuenta (str_lower ucd_latin body_debit) /\
  is_substring kw_tarjeta_de_credito (str_lower ucd_latin body_debit) /\
  exists r,
    parse_banco_chile_email ucd_latin body_debit = Ok r /\
    card_type r = Some DEBITO /\
    merchant r = found_merchant ucd_latin body_debit.
Proof.
  split; [absent|]. split; [absent|]. split; [present|]. split; [present|].
  apply (@debit_before_credit ucd_latin body_debit); [absent|absent|present].
Defined.

Lemma credit_when_nothing_earlier_witness :
  ~ is_substring kw_giro (str_lower ucd_latin body_purchase) /\
  ~ is_substring kw_cajero (str_lower ucd_latin body_purchase) /\
  ~ is_substring kw_cargo_a_cuenta (str_lower ucd_latin body_purchase) /\
  is_substring kw_tarjeta_de_credito (str_lower ucd_latin body_purchase) /\
  exists r,
    parse_banco_chile_email ucd_latin body_purchase = Ok r /\
    card_type r = Some CREDITO /\
    merchant r = found_merchant ucd_latin body_purchase.
Proof.
  split; [absent|]. split; [absent|]. split; [absent|]. split; [present|].
  apply (@credit_when_nothing_earlier ucd_latin body_purchase);
    [absent|absent|absent|present].
Defined.

Lemma unclassified_body_witness :
  ~ is_substring kw_giro (str_lower ucd_latin body_fallback) /\
  ~ is_substring kw_cajero (str_lower ucd_latin body_fallback) /\
  ~ is_substring kw_cargo_a_cuenta (str_lower ucd_latin body_fallback) /\
  ~ is_substring kw_tarjeta_de_credito (str_lower ucd_latin body_fallback) /\
  exists r,
    parse_banco_chile_email ucd_latin body_fallback = Ok r /\
    merchant r = None /\
    card_type r
    = option_map (fun m => str_capitalize ucd_latin (group m 1))
        (search_ignorecase ucd_latin re_card_type body_fallback).
Proof.
  split; [absent|]. split; [absent|]. split; [absent|]. split; [absent|].
  apply (@unclassified_body ucd_latin body_fallback); absent.
Defined.

Lemma merchant_purchase :
  merchant record_purchase = Some (u "SII 11001SANTIAGOCL").
Proof. reflexivity. Qed.

Lemma merchant_only_with_known_kind_witness :
  parse_banco_chile_email ucd_latin body_purchase = Ok record_purchase /\
  merchant record_purchase = Some (u "SII 11001SANTIAGOCL") /\
  ((card_type record_purchase = Some GIRO /\
    u "SII 11001SANTIAGOCL" = CAJERO_AUTOMATICO) \/
   ((card_type record_purchase = Some DEBITO \/
     card_type record_purchase = Some CREDITO) /\
    found_merchant ucd_latin body_purchase = Some (u "SII 11001SANTIAGOCL"))).
Proof.
  split; [exact parse_body_purchase|]. split; [exact merchant_purchase|].
  exact (@merchant_only_with_known_kind ucd_latin body_purchase
           record_purchase _ parse_body_purchase merchant_purchase).
Defined.

Lemma kind_purchase : card_type record_purchase <> Some GIRO.
Proof. intros H. vm_compute in H. discriminate. Qed.

Lemma merchant_is_clean_witness :
  parse_banco_chile_email ucd_latin body_purchase = Ok record_purchase /\
  merchant record_purchase = Some (u "SII 11001SANTIAGOCL") /\
  card_type record_purchase <> Some GIRO /\
  Forall (fun c => c <> CR /\ c <> LF) (u "SII 11001SANTIAGOCL") /\
  trimmed (isspace ucd_latin) (u "SII 11001SANTIAGOCL") /\
  exists raw, u "SII 11001SANTIAGOCL" = str_strip ucd_latin raw /\
              raw <> [] /\ is_substring (kw_en ++ raw) body_purchase.
Proof.
  split; [exact parse_body_purchase|]. split; [exact merchant_purchase|].
  split; [exact kind_purchase|].
  exact (@merchant_is_clean ucd_latin body_purchase record_purchase _
           parse_body_purchase merchant_purchase kind_purchase).
Defined.

Lemma datetime_purchase :
  datetime record_purchase = Some (u "05/02/2026 16:23").
Proof. reflexivity. Qed.

Lemma datetime_is_copied_witness :
  parse_banco_chile_email ucd_latin body_purchase = Ok record_purchase /\
  datetime record_purchase = Some (u "05/02/2026 16:23") /\
  exists day time,
    u "05/02/2026 16:23" = day ++ SPACE :: time /\
    passes (date_tests ucd_latin) day /\ passes (time_tests ucd_latin) time /\
    is_substring (kw_el_space ++ u "05/02/2026 16:23") body_purchase.
Proof.
  split; [exact parse_body_purchase|]. split; [exact datetime_purchase|].
  exact (@datetime_is_copied ucd_latin body_purchase record_purchase _
           parse_body_purchase datetime_purchase).
Defined.

Lemma row_of_extracted_record_witness :
  isdecimal ucd_latin SPACE = false /\
  parse_banco_chile_email ucd_latin body_purchase = Ok record_purchase /\
  row_data record_purchase
  = [ CellStr (firstn 10 (or_empty (datetime record_purchase)));
      CellStr (skipn 11 (or_empty (datetime record_purchase)));
      CellStr (or_empty (merchant record_purchase));
      CellStr (or_empty (card_type record_purchase));
      CellFloat (amount record_purchase) ].
Proof.
  split; [reflexivity|]. split; [exact parse_body_purchase|].
  exact (@row_of_extracted_record ucd_latin body_purchase record_purchase
           eq_refl parse_body_purchase).
Defined.


Lemma greeting_is_refused :
  parse_email ucd_latin env_configured failing_client email_greeting []
  = (Returned {| status := st_error; transaction := None;
                 message := Some msg_no_transaction |}, []).
Proof. vm_compute. reflexivity. Qed.

Lemma error_status_iff_witness :
  parse_email ucd_latin env_configured failing_client email_greeting []
  = (Returned {| status := st_error; transaction := None;
                 message := Some msg_no_transaction |}, []) /\
  (st_error = st_error <->
   token_value ucd_latin (body email_greeting) = None \/
   token_value ucd_latin (body email_greeting) = Some 0%N).
Proof.
  split; [exact greeting_is_refused|].
  exact (@error_status_iff ucd_latin env_configured failing_client
           email_greeting _ [] [] greeting_is_refused).
Defined.

Lemma wrong_key_reaches_nothing_witness :
  truthy configured_key = true /\
  guessed_key <> configured_key /\
  parse_email_route ucd_latin env_configured accepting_client
    configured_key guessed_key email_purchase []
  = (if truthy guessed_key
     then HTTPException 403 detail_invalid_key
     else HTTPException 401 detail_missing_key, []).
Proof.
  assert (Hne : guessed_key <> configured_key) by discriminate.
  split; [reflexivity|]. split; [exact Hne|].
  exact (@wrong_key_reaches_nothing ucd_latin env_configured accepting_client
           configured_key guessed_key email_purchase [] eq_refl Hne).
Defined.


Lemma no_expenses :
  get_expenses env_unset accepting_client 100 0 []
  = (Returned {| exp_status := st_success; count := 0; data := [] |},
     [EvBuild; EvGet default_spreadsheet_id (expenses_range 100 0)]).
Proof. reflexivity. Qed.

Lemma get_expenses_count_witness :
  get_expenses env_unset accepting_client 100 0 []
  = (Returned {| exp_status := st_success; count := 0; data := [] |},
     [EvBuild; EvGet default_spreadsheet_id (expenses_range 100 0)]) /\
  st_success = st_success /\
  0 = List.length (@nil row) /\
  (values_get accepting_client (expenses_spreadsheet env_unset)
     (expenses_range 100 0) = Ok None -> @nil row = []).
Proof.
  split; [exact no_expenses|].
  exact (@get_expenses_count env_unset accepting_client 100 0 _ [] _
           no_expenses).
Defined.

Lemma updates_incomplete_lack_a_key :
  ~ Forall has_both_keys updates_incomplete.
Proof.
  intros H. inversion H as [|? ? _ H2]; subst.
  inversion H2 as [|? ? [e [_ He]] _]; subst. discriminate He.
Qed.

Lemma batch_update_incomplete_witness :
  Batch.service_build counting_service = Ok tt /\
  ~ Forall has_both_keys updates_incomplete /\
  exists key,
    (key = Batch.key_range \/ key = Batch.key_values) /\
    Batch.batch_update_sheet counting_service (u "1AbCdEf")
      updates_incomplete []
    = (Raise (Batch.KeyError key), [] ++ [Batch.Build str]).
Proof.
  split; [reflexivity|]. split; [exact updates_incomplete_lack_a_key|].
  exact (@BatchFacts.batch_update_incomplete str nat counting_service
           (u "1AbCdEf") updates_incomplete [] eq_refl
           updates_incomplete_lack_a_key).
Defined.

Lemma updates_complete_have_keys : Forall has_both_keys updates_complete.
Proof.
  repeat constructor.
  - exists {| Batch.entry_range := u "Sheet1!A1";
              Batch.entry_values := u "Fecha" |}.
    split; reflexivity.
  - exists {| Batch.entry_range := u "Sheet1!A2";
              Batch.entry_values := u "100" |}.
    split; reflexivity.
Qed.

Lemma batch_update_complete_witness :
  Batch.service_build counting_service = Ok tt /\
  Forall has_both_keys updates_complete /\
  exists data,
    Forall2 entry_matches updates_complete data /\
    let request := {| Batch.valueInputOption := Batch.USER_ENTERED;
                      Batch.body_data := data |} in
    Batch.batch_update_sheet counting_service (u "1AbCdEf")
      updates_complete []
    = (Batch.values_batchUpdate counting_service (u "1AbCdEf") request,
       [] ++ [Batch.Build str; Batch.BatchUpdate (u "1AbCdEf") request]).
Proof.
  split; [reflexivity|]. split; [exact updates_complete_have_keys|].
  exact (@BatchFacts.batch_update_complete str nat counting_service
           (u "1AbCdEf") updates_complete [] eq_refl
           updates_complete_have_keys).
Defined.
